(** * Agent starter: math operations, agent runtime, sessions and streaming

    A shallow embedding of the Python sources

    - [agents/math_agent/plugins/math_plugin.py]  (module [MathPlugin])
    - [mcp_server/tools/*.py]                     (module [Tools])
    - [runtime/agent_runtime.py]                  (module [Runtime])
    - [database/session.py]                       (module [Sessions])
    - [runtime/enhanced_agent_runtime.py]         (module [Enhanced])

    followed by the properties established about them. *)

From Stdlib Require Import ZArith Lia Znumtheory Floats Ascii String.
From stdpp Require Import base option list strings gmap pretty.

Local Open Scope Z_scope.

(** * Python numbers, exceptions and operators *)

Module Py.

(** Exceptions.  [ValueError] carries its text; the interpreter's own
    [ZeroDivisionError], [OverflowError] and [TypeError] are kept without
    text, which differs between interpreter versions. *)
Inductive exn :=
| ValueError (msg : string)
| ZeroDivisionError
| OverflowError
| TypeError.

Inductive result (A : Type) :=
| Ok (a : A)
| Raise (e : exn).
Arguments Ok {A} a.
Arguments Raise {A} e.

#[export] Instance result_ret : MRet result := @Ok.
#[export] Instance result_bind : MBind result := fun A B f m =>
  match m with Ok a => f a | Raise e => Raise e end.
#[export] Instance result_fmap : FMap result := fun A B f m =>
  match m with Ok a => Ok (f a) | Raise e => Raise e end.

(** A numeric argument: an [int] (unbounded) or a [float] (binary64).
    A parameter annotated [float] accepts both, a parameter annotated
    [int] accepts an [int], which is [Z] below. *)
Inductive number :=
| PyInt (z : Z)
| PyFloat (f : float).

(** What [**] can return: a number, or a [complex] for a negative base
    with a fractional exponent. *)
Inductive value :=
| Num (n : number)
| PyComplex (re im : float).

(** [float(x)]: the identity on a float; an int is rounded to the nearest
    binary64 (ties to even) and is refused when it is out of range. *)
Definition float_ (x : number) : result float :=
  match x with
  | PyFloat f => Ok f
  | PyInt z =>
      match binary_normalize prec emax z 0 false with
      | S754_infinity _ => Raise OverflowError
      | sf => Ok (SF2Prim sf)
      end
  end.

(** [int(x)] on an int. *)
Definition int_ (x : Z) : Z := x.

(** [str(x)] on an int, as an f-string prints it. *)
Definition str_int (x : Z) : string := pretty x.

(** Comparison of an int with a float is exact in Python (the int is not
    rounded first). *)
Definition cmp_int_float (z : Z) (f : float) : option comparison :=
  match Prim2SF f with
  | S754_nan => None
  | S754_infinity s => Some (if s then Gt else Lt)
  | S754_zero _ => Some (z ?= 0)
  | S754_finite s m e =>
      let v := if s then Z.neg m else Z.pos m in
      Some (if 0 <=? e then z ?= v * 2 ^ e else z * 2 ^ (- e) ?= v)
  end.

Definition cmp (a b : number) : option comparison :=
  match a, b with
  | PyInt x, PyInt y => Some (x ?= y)
  | PyFloat x, PyFloat y =>
      match PrimFloat.compare x y with
      | FEq => Some Eq
      | FLt => Some Lt
      | FGt => Some Gt
      | FNotComparable => None
      end
  | PyInt x, PyFloat y => cmp_int_float x y
  | PyFloat x, PyInt y => CompOpp <$> cmp_int_float y x
  end.

(** [a == b], [a < b], [a <= b] *)
Definition eq (a b : number) : bool :=
  match cmp a b with Some Eq => true | _ => false end.
Definition lt (a b : number) : bool :=
  match cmp a b with Some Lt => true | _ => false end.
Definition le (a b : number) : bool :=
  match cmp a b with Some Lt | Some Eq => true | _ => false end.

(** [a + b], [a - b], [a * b]: exact on two ints, binary64 otherwise. *)
Definition arith (fz : Z -> Z -> Z) (ff : float -> float -> float)
    (a b : number) : result number :=
  match a, b with
  | PyInt x, PyInt y => Ok (PyInt (fz x y))
  | _, _ => x ← float_ a; y ← float_ b; Ok (PyFloat (ff x y))
  end.

Definition add := arith Z.add PrimFloat.add.
Definition sub := arith Z.sub PrimFloat.sub.
Definition mul := arith Z.mul PrimFloat.mul.

(** [a / b] on two floats *)
Definition float_truediv (a b : float) : result float :=
  if (b =? 0)%float then Raise ZeroDivisionError else Ok (a / b)%float.

(** [a % b] on two ints: the remainder takes the sign of the divisor. *)
Definition int_mod (a b : Z) : result Z :=
  if b =? 0 then Raise ZeroDivisionError else Ok (a mod b).

(** [range(lo, hi)] *)
Definition range (lo hi : Z) : list Z := seqZ lo (hi - lo).

(** [math.sqrt(x)] *)
Definition math_sqrt (x : number) : result float :=
  f ← float_ x;
  if (f <? 0)%float then Raise (ValueError "math domain error")
  else Ok (PrimFloat.sqrt f).

(** [math.e] *)
Definition math_e : number := PyFloat 0x1.5bf0a8b145769p+1%float.

(** The interpreter and C library routines that have no counterpart here:
    [**] on floats, the correctly rounded quotient of two ints, and
    [math.log] with one and with two arguments. *)
Class Builtins := {
  float_pow : float -> float -> result value;
  long_true_divide : Z -> Z -> result float;
  math_log : number -> result float;
  math_log_base : number -> number -> result float
}.

(** [a / b] *)
Definition truediv `{Builtins} (a b : number) : result number :=
  match a, b with
  | PyInt x, PyInt y =>
      if y =? 0 then Raise ZeroDivisionError
      else PyFloat <$> long_true_divide x y
  | _, _ => x ← float_ a; y ← float_ b; PyFloat <$> float_truediv x y
  end.

(** [a ** b]: exact on an int raised to a non-negative int. *)
Definition pow `{Builtins} (a b : number) : result value :=
  match a, b with
  | PyInt x, PyInt y =>
      if 0 <=? y then Ok (Num (PyInt (x ^ y)))
      else x' ← float_ a; y' ← float_ b; float_pow x' y'
  | _, _ => x ← float_ a; y ← float_ b; float_pow x y
  end.

End Py.

Import Py.

(** The failure kinds of the specification.  Both are a [ValueError] in the
    code, told apart by their text. *)
Definition InvalidInput (msg : string) : exn := ValueError msg.

Definition no_inverse_msg (a m : Z) : string :=
  "No modular inverse exists for " +:+ str_int a +:+ " mod " +:+ str_int m +:+ ".".

Definition NotFound (a m : Z) : exn := ValueError (no_inverse_msg a m).

(** * The embedded plugin: math_plugin.py

    Every method starts with [print] (left out) and, for the seven real
    operations, [if isinstance(x, str): x = float(x)], which is not taken
    on a number. *)

Module MathPlugin.

Definition add (input amount : number) : result number :=
  Py.add input amount.

Definition subtract (input amount : number) : result number :=
  Py.sub input amount.

Definition multiply (input amount : number) : result number :=
  Py.mul input amount.

Definition divide `{Builtins} (input amount : number) : result number :=
  if Py.eq amount (PyInt 0) then Raise (ValueError "Cannot divide by zero.")
  else Py.truediv input amount.

Definition square_root (input : number) : result number :=
  if Py.lt input (PyInt 0)
  then Raise (ValueError "Cannot calculate square root of a negative number.")
  else PyFloat <$> math_sqrt input.

Definition power `{Builtins} (input exponent : number) : result value :=
  Py.pow input exponent.

Definition log `{Builtins} (input : number) (base : option number) : result number :=
  let base := default math_e base in
  if Py.le input (PyInt 0)
  then Raise (ValueError "Cannot calculate logarithm of a non-positive number.")
  else if Py.le base (PyInt 0) || Py.eq base (PyInt 1)
  then Raise (ValueError "Logarithm base must be positive and not equal to 1.")
  else if Py.eq base math_e then PyFloat <$> math_log input
  else PyFloat <$> math_log_base input base.

Definition modulo (input amount : Z) : result Z :=
  if amount =? 0 then Raise (ValueError "Cannot modulo by zero.")
  else int_mod input amount.

(** The [for] loop over [range(1, modulus)], returning at the first hit. *)
Fixpoint search (input modulus : Z) (xs : list Z) : option Z :=
  match xs with
  | [] => None
  | x :: xs' =>
      if (input * x) mod modulus =? 1 then Some x
      else search input modulus xs'
  end.

Definition modular_inverse (input modulus : Z) : result Z :=
  input ← int_mod input modulus;
  match search input modulus (range 1 modulus) with
  | Some x => Ok x
  | None => Raise (ValueError (no_inverse_msg input modulus))
  end.

End MathPlugin.

(** * The tool server: mcp_server/tools/*.py *)

Module Tools.

(** addition.py *)
Definition add (a b : number) : result number :=
  x ← float_ a; y ← float_ b; Py.add (PyFloat x) (PyFloat y).

(** subtraction.py *)
Definition subtract (a b : number) : result number :=
  x ← float_ a; y ← float_ b; Py.sub (PyFloat x) (PyFloat y).

(** multiplication.py *)
Definition multiply (a b : number) : result number :=
  x ← float_ a; y ← float_ b; Py.mul (PyFloat x) (PyFloat y).

(** division.py *)
Definition divide (a b : number) : result number :=
  z ← float_ b;
  if Py.eq (PyFloat z) (PyInt 0) then Raise (ValueError "Cannot divide by zero.")
  else x ← float_ a; y ← float_ b; PyFloat <$> float_truediv x y.

(** square_root.py *)
Definition square_root (x : number) : result number :=
  x ← float_ x;
  if Py.lt (PyFloat x) (PyInt 0)
  then Raise (ValueError "Cannot calculate square root of a negative number.")
  else PyFloat <$> math_sqrt (PyFloat x).

(** power.py *)
Definition power `{Builtins} (base exponent : number) : result value :=
  x ← float_ base; y ← float_ exponent; Py.pow (PyFloat x) (PyFloat y).

(** logarithm.py *)
Definition log `{Builtins} (x : number) (base : option number) : result number :=
  let base := default math_e base in
  x ← float_ x;
  base ← float_ base;
  if Py.le (PyFloat x) (PyInt 0)
  then Raise (ValueError "Cannot calculate logarithm of a non-positive number.")
  else if Py.le (PyFloat base) (PyInt 0) || Py.eq (PyFloat base) (PyInt 1)
  then Raise (ValueError "Logarithm base must be positive and not equal to 1.")
  else if Py.eq (PyFloat base) math_e then PyFloat <$> math_log (PyFloat x)
  else PyFloat <$> math_log_base (PyFloat x) (PyFloat base).

(** modulo.py *)
Definition modulo (a b : Z) : result Z :=
  if int_ b =? 0 then Raise (ValueError "Cannot modulo by zero.")
  else int_mod (int_ a) (int_ b).

Fixpoint search (a m : Z) (xs : list Z) : option Z :=
  match xs with
  | [] => None
  | x :: xs' => if (a * x) mod m =? 1 then Some x else search a m xs'
  end.

Definition modular_inverse (a m : Z) : result Z :=
  let a := int_ a in
  let m := int_ m in
  a ← int_mod a m;
  match search a m (range 1 m) with
  | Some x => Ok x
  | None => Raise (ValueError (no_inverse_msg a m))
  end.

End Tools.
(** * The ambient world: identifiers, clocks, globals

    What the runtime reads from and writes to outside its own objects. *)

Module World.

(** A JSON-like Python value, as carried in the dicts that are streamed. *)
Inductive pyval :=
| PNone
| PBool (b : bool)
| PInt (z : Z)
| PFloat (f : float)
| PStr (s : string)
| PList (l : list pyval).

(** Python truth value *)
Definition truthy (v : pyval) : bool :=
  match v with
  | PNone => false
  | PBool b => b
  | PInt z => negb (z =? 0)
  | PFloat f => negb (f =? 0)%float
  | PStr s => negb (s =? "")%string
  | PList l => match l with [] => false | _ => true end
  end.

(** A timestamp keeps the instant and which call formatted it. *)
Inductive timestamp :=
| strftime_gmtime (t : Z)      (* time.strftime("%Y-%m-%dT%H:%M:%SZ", time.gmtime()) *)
| now_isoformat (t : Z)        (* datetime.datetime.now().isoformat() *)
| utcnow (t : Z).              (* datetime.utcnow() *)

(** Events put on an agent's [_event_queue] *)
Inductive event :=
| agent_call (agent_id agent_query : string)
| agent_response (agent_id response : string).

(** Sources the program does not control: the results of successive
    [uuid.uuid4()] calls, the successive readings of the clock, and
    [str()] of a value that is not a string. *)
Record env := {
  uuid_src : nat -> string;
  time_src : nat -> Z;
  str_of : pyval -> string
}.

Record world := {
  uuid_count : nat;                       (* uuid4() calls so far *)
  clock_count : nat;                      (* clock readings so far *)
  last_called_agent : option string;      (* module global *)
  last_agent_response : option string;    (* module global *)
  event_queue : list event;               (* the queue attached to agents *)
  posts : list (string * string)          (* HTTP POSTs sent: endpoint, content *)
}.

(** State passing over the world *)
Record M (A : Type) := mkM { run : world -> A * world }.
Arguments mkM {A} run.
Arguments run {A} m w.

#[export] Instance M_ret : MRet M := fun A a => mkM (fun w => (a, w)).
#[export] Instance M_bind : MBind M := fun A B f m =>
  mkM (fun w => let '(a, w') := run m w in run (f a) w').

Definition get : M world := mkM (fun w => (w, w)).
Definition modify (f : world -> world) : M unit := mkM (fun w => (tt, f w)).

Definition uuid4 (E : env) : M string :=
  mkM (fun w =>
    (uuid_src E (uuid_count w),
     {| uuid_count := S (uuid_count w); clock_count := clock_count w;
        last_called_agent := last_called_agent w;
        last_agent_response := last_agent_response w;
        event_queue := event_queue w; posts := posts w |})).

Definition read_clock (E : env) : M Z :=
  mkM (fun w =>
    (time_src E (clock_count w),
     {| uuid_count := uuid_count w; clock_count := S (clock_count w);
        last_called_agent := last_called_agent w;
        last_agent_response := last_agent_response w;
        event_queue := event_queue w; posts := posts w |})).

Definition set_last_called (a r : option string) : M unit :=
  modify (fun w =>
    {| uuid_count := uuid_count w; clock_count := clock_count w;
       last_called_agent := a; last_agent_response := r;
       event_queue := event_queue w; posts := posts w |}).

Definition set_last_response (r : option string) : M unit :=
  modify (fun w =>
    {| uuid_count := uuid_count w; clock_count := clock_count w;
       last_called_agent := last_called_agent w; last_agent_response := r;
       event_queue := event_queue w; posts := posts w |}).

Definition put_event (e : event) : M unit :=
  modify (fun w =>
    {| uuid_count := uuid_count w; clock_count := clock_count w;
       last_called_agent := last_called_agent w;
       last_agent_response := last_agent_response w;
       event_queue := event_queue w ++ [e]; posts := posts w |}).

Definition record_post (endpoint content : string) : M unit :=
  modify (fun w =>
    {| uuid_count := uuid_count w; clock_count := clock_count w;
       last_called_agent := last_called_agent w;
       last_agent_response := last_agent_response w;
       event_queue := event_queue w; posts := posts w ++ [(endpoint, content)] |}).

(** [str(v)] *)
Definition py_str (E : env) (v : pyval) : string :=
  match v with
  | PStr s => s
  | _ => str_of E v
  end.

(** [not s] for an optional string: [None] and the empty string. *)
Definition absent (s : option string) : bool :=
  match s with
  | None => true
  | Some s => (s =? "")%string
  end.

End World.

Import World.

(** * Python containers *)

(** A [dict] with string keys: its items in insertion order.  Assigning to
    a key that is there replaces the value where it stands, a new key goes
    to the end; [values()] lists in that order. *)
Definition dict (V : Type) : Type := list (string * V).

Fixpoint dict_get {V} (d : dict V) (k : string) : option V :=
  match d with
  | [] => None
  | (k', v) :: d => if decide (k' = k) then Some v else dict_get d k
  end.

Fixpoint dict_set {V} (d : dict V) (k : string) (v : V) : dict V :=
  match d with
  | [] => [(k, v)]
  | (k', v') :: d => if decide (k' = k) then (k', v) :: d else (k', v') :: dict_set d k v
  end.

Definition dict_values {V} (d : dict V) : list V := d.*2.

(** A [str] is held as its UTF-8 encoding.  [len] and slices count
    characters: the bytes that do not continue a character (those outside
    0x80-0xBF). *)
Definition continuation (c : ascii) : bool :=
  (128 <=? nat_of_ascii c)%nat && (nat_of_ascii c <? 192)%nat.

(** [len(s)] *)
Fixpoint str_len (s : string) : nat :=
  match s with
  | EmptyString => 0%nat
  | String c s => if continuation c then str_len s else S (str_len s)
  end.

(** [s[:n]] *)
Fixpoint str_take (n : nat) (s : string) : string :=
  match s with
  | EmptyString => EmptyString
  | String c s =>
      if continuation c then String c (str_take n s)
      else match n with
           | O => EmptyString
           | S n => String c (str_take n s)
           end
  end.

(** * The core runtime: agent_runtime.py *)

Module Runtime.

(** ** AgentPlugin *)

Record AgentPlugin := {
  id : string;
  name : string;
  endpoint : string;
  description : string;
  capabilities : list string;
  conversation_starters : list string;
  has_event_queue : bool      (* [_event_queue] is set and is not None *)
}.

(** The request dict of [generate_request]; [rq_k] is its key [k]. *)
Record request := {
  rq_messageId : string;
  rq_conversationId : string;
  rq_senderId : string;
  rq_recipientId : string;
  rq_content : string;
  rq_timestamp : timestamp;
  rq_type : pyval
}.

Definition generate_request (E : env) (self : AgentPlugin)
    (content sender_id : string) (conversation_id : option string) : M request :=
  conversation_id ←
    match conversation_id with
    | None => uuid4 E
    | Some c => mret c
    end;
  let msg_type := if (id self =? "goodbye-agent")%string then PInt 0 else PStr "Text" in
  message_id ← uuid4 E;
  t ← read_clock E;
  mret {| rq_messageId := message_id;
          rq_conversationId := conversation_id;
          rq_senderId := sender_id;
          rq_recipientId := id self;
          rq_content := content;
          rq_timestamp := strftime_gmtime t;
          rq_type := msg_type |}.

(** What the POST to an agent's endpoint comes to: a status with the
    [content] key of the JSON body when it has one, or an exception
    (with its [str]) raised while sending or decoding. *)
Inductive http_outcome :=
| replied (status : Z) (body_content : option string)
| failed (err : string).

Definition http := string -> request -> http_outcome.

Definition when (b : bool) (m : M unit) : M unit := if b then m else mret tt.

Definition call_agent (E : env) (post : http) (self : AgentPlugin)
    (query sender_id : string) (conversation_id : option string) : M string :=
  set_last_called (Some (id self)) None;;
  when (has_event_queue self) (put_event (agent_call (id self) query));;
  request ← generate_request E self query sender_id conversation_id;
  record_post (endpoint self) (rq_content request);;
  match post (endpoint self) request with
  | replied status body_content =>
      if status =? 200 then
        let response_content := default "No response from agent" body_content in
        set_last_response (Some response_content);;
        when (has_event_queue self)
          (put_event (agent_response (id self) response_content));;
        mret response_content
      else mret ("Error calling agent: " +:+ pretty status)
  | failed err => mret ("Exception calling agent: " +:+ err)
  end.

(** ** AgentTerminationStrategy *)

Record AgentTerminationStrategy := { max_iterations : Z }.

Definition should_terminate {A} (self : AgentTerminationStrategy)
    (iteration : Z) (messages : list A) : bool :=
  max_iterations self <=? iteration.

(** ** AgentGroupChat *)

(** The [response] dict built for each agent *)
Record reply := {
  rp_content : string;
  rp_messageId : string;
  rp_conversationId : string;
  rp_senderId : string;
  rp_recipientId : string;
  rp_timestamp : timestamp;
  rp_type : string
}.

Record agent_reply := {
  agent_id : string;
  agent_name : string;
  response : reply
}.

(** An entry of [self.messages] *)
Inductive chat_entry :=
| user_entry (content : string) (t : timestamp)
| assistant_entry (content : string) (t : timestamp)
    (agent_responses : list agent_reply) (execution_trace : option (list string)).

Record AgentGroupChat := {
  agents : list AgentPlugin;
  termination_strategy : AgentTerminationStrategy;
  messages : list chat_entry
}.

(** The dict returned by [AgentGroupChat.process_query] *)
Record group_message := {
  gm_messageId : string;
  gm_conversationId : string;
  gm_senderId : string;
  gm_recipientId : string;
  gm_content : string;
  gm_timestamp : timestamp;
  gm_type : string;
  gm_agent_responses : list agent_reply;
  gm_execution_trace : option (list string)
}.

(** The loop [for agent in self.agents], carrying [execution_trace] and
    [responses]. *)
Fixpoint call_agents (E : env) (post : http) (agents : list AgentPlugin)
    (query user_id conversation_id : string) (verbose : bool)
    (execution_trace : list string) (responses : list agent_reply)
    : M (list string * list agent_reply) :=
  match agents with
  | [] => mret (execution_trace, responses)
  | agent :: rest =>
      let execution_trace :=
        if verbose then execution_trace ++ ["Calling " +:+ name agent +:+ "..."]
        else execution_trace in
      response_content ← call_agent E post agent query user_id (Some conversation_id);
      message_id ← uuid4 E;
      t ← read_clock E;
      let r := {| agent_id := id agent;
                  agent_name := name agent;
                  response :=
                    {| rp_content := response_content;
                       rp_messageId := message_id;
                       rp_conversationId := conversation_id;
                       rp_senderId := id agent;
                       rp_recipientId := user_id;
                       rp_timestamp := now_isoformat t;
                       rp_type := "Text" |} |} in
      call_agents E post rest query user_id conversation_id verbose
        execution_trace (responses ++ [r])
  end.

Definition group_process_query (E : env) (post : http) (self : AgentGroupChat)
    (query user_id : string) (conversation_id : option string) (verbose : bool)
    : M (group_message * AgentGroupChat) :=
  conversation_id ←
    (if absent conversation_id then uuid4 E else mret (default "" conversation_id));
  t ← read_clock E;
  let messages := messages self ++ [user_entry query (now_isoformat t)] in
  '(execution_trace, responses) ←
    call_agents E post (agents self) query user_id conversation_id verbose [] [];
  let combined_content := String.concat " " (map (fun r => rp_content (response r)) responses) in
  let execution_trace := if verbose then Some execution_trace else None in
  message_id ← uuid4 E;
  t1 ← read_clock E;
  let final_message :=
    {| gm_messageId := message_id;
       gm_conversationId := conversation_id;
       gm_senderId := "agent-runtime";
       gm_recipientId := user_id;
       gm_content := combined_content;
       gm_timestamp := now_isoformat t1;
       gm_type := "Text";
       gm_agent_responses := responses;
       gm_execution_trace := execution_trace |} in
  t2 ← read_clock E;
  let messages :=
    messages ++ [assistant_entry combined_content (now_isoformat t2) responses execution_trace] in
  mret (final_message,
        {| agents := agents self;
           termination_strategy := termination_strategy self;
           messages := messages |}).

(** ** AgentRuntime *)

(** An entry of [self.conversations[conversation_id]] *)
Inductive turn :=
| user_turn (content : string) (t : timestamp)
| assistant_turn (content : string) (t : timestamp)
    (execution_trace : list string) (agents_used : list string).

Record AgentRuntime := {
  rt_agents : dict AgentPlugin;
  conversations : gmap string (list turn);
  enable_streaming : bool
}.

(** The chat history handed to the completion service; [system_prompt]
    is the fixed orchestration prompt. *)
Inductive chat_message :=
| system_prompt
| user_message (content : string)
| assistant_message (content : string).

Definition replay (t : turn) : chat_message :=
  match t with
  | user_turn c _ => user_message c
  | assistant_turn c _ _ _ => assistant_message c
  end.

Record function_call := {
  fc_name : string;
  fc_arguments : string
}.

(** A message object as [process_query] probes it: the attribute
    [content] when it has one, [items[0].text] when it has one, the
    attribute [function_calls] when it has one, and its [str]. *)
Record message_obj := {
  content_attr : option string;
  first_item_text : option string;
  function_calls_attr : option (list function_call);
  str_attr : string
}.

(** The completion result: one object, or a list of objects *)
Inductive completion :=
| one (m : message_obj)
| many (l : list message_obj).

(** The completion service: the result, or the [str] of the exception it
    raised; the functions it invokes on the way act on the world. *)
Definition chat_service := list chat_message -> M (string + completion).

Definition response_content_of (result : completion) : string :=
  match result with
  | one m =>
      match content_attr m, first_item_text m with
      | Some c, _ => c
      | None, Some t => t
      | None, None => str_attr m
      end
  | many [] => "[]"
  | many (m :: _) =>
      match first_item_text m, content_attr m with
      | Some t, _ => t
      | None, Some c => c
      | None, None => str_attr m
      end
  end.

Definition function_calls_of (result : completion) : list function_call :=
  match result with
  | one m => default [] (function_calls_attr m)
  | many [] => []
  | many (m :: _) => default [] (function_calls_attr m)
  end.

(** [s.split(sep)[0]]: the text before the first [sep], all of [s] when
    there is none. *)
Fixpoint before_first (sep : ascii) (s : string) : string :=
  match s with
  | EmptyString => EmptyString
  | String c s' => if Ascii.eqb c sep then EmptyString else String c (before_first sep s')
  end.

(** [s.replace(old, new)] for single characters *)
Fixpoint replace (old new : ascii) (s : string) : string :=
  match s with
  | EmptyString => EmptyString
  | String c s' => String (if Ascii.eqb c old then new else c) (replace old new s')
  end.

(** [agent_id.replace('-', '_')], the name under which
    [register_agent_plugins] registers an agent; the kernel then reports
    a call of its function [f] under the name [plugin_name-f]. *)
Definition plugin_name (agent_id : string) : string :=
  replace "-"%char "_"%char agent_id.

(** [function_name.split('-')[0].replace('_', '-')] *)
Definition agent_id_of (function_name : string) : string :=
  replace "_"%char "-"%char (before_first "-"%char function_name).

(** The loop [for function_call in function_calls], carrying
    [agents_used] and [execution_trace]. *)
Fixpoint record_calls (query : string) (function_calls : list function_call)
    (agents_used execution_trace : list string) : list string * list string :=
  match function_calls with
  | [] => (agents_used, execution_trace)
  | function_call :: rest =>
      let function_name := fc_name function_call in
      let agent_id := agent_id_of function_name in
      record_calls query rest
        (agents_used ++ [agent_id])
        (execution_trace ++ ["Called " +:+ agent_id +:+ " with query: " +:+ query])
  end.

(** The dict returned by [AgentRuntime.process_query]; a key that the
    dict does not have is [None]. *)
Record message := {
  msg_messageId : string;
  msg_conversationId : string;
  msg_senderId : string;
  msg_recipientId : string;
  msg_content : string;
  msg_timestamp : timestamp;
  msg_type : string;
  msg_execution_trace : option (list string);
  msg_agents_used : option (list string);
  msg_error : option string
}.

Definition set_conversation (self : AgentRuntime) (conversation_id : string)
    (history : list turn) : AgentRuntime :=
  {| rt_agents := rt_agents self;
     conversations := <[conversation_id := history]> (conversations self);
     enable_streaming := enable_streaming self |}.

Definition get_conversation_history (self : AgentRuntime) (conversation_id : string)
    : list turn :=
  default [] (conversations self !! conversation_id).

Definition process_query (E : env) (chat : chat_service) (self : AgentRuntime)
    (query : string) (conversation_id : option string) (verbose : bool)
    (max_agents : option Z) : M (message * AgentRuntime) :=
  _ ← read_clock E;
  conversation_id ←
    (if absent conversation_id then uuid4 E else mret (default "" conversation_id));
  t ← read_clock E;
  let history :=
    default [] (conversations self !! conversation_id)
      ++ [user_turn query (now_isoformat t)] in
  let self := set_conversation self conversation_id history in
  let chat_history := system_prompt :: map replay history in
  result ← chat chat_history;
  match result with
  | inr result =>
      let response_content := response_content_of result in
      let '(agents_used, execution_trace) :=
        record_calls query (function_calls_of result) [] [] in
      message_id ← uuid4 E;
      t1 ← read_clock E;
      let response_message :=
        {| msg_messageId := message_id;
           msg_conversationId := conversation_id;
           msg_senderId := "runtime";
           msg_recipientId := "user";
           msg_content := response_content;
           msg_timestamp := now_isoformat t1;
           msg_type := "Text";
           msg_execution_trace := Some (if verbose then execution_trace else []);
           msg_agents_used := Some agents_used;
           msg_error := None |} in
      t2 ← read_clock E;
      let history :=
        history ++ [assistant_turn response_content (now_isoformat t2)
                      (if verbose then execution_trace else []) agents_used] in
      mret (response_message, set_conversation self conversation_id history)
  | inl e =>
      let error_message := "Error processing query: " +:+ e in
      message_id ← uuid4 E;
      t1 ← read_clock E;
      mret ({| msg_messageId := message_id;
               msg_conversationId := conversation_id;
               msg_senderId := "runtime";
               msg_recipientId := "user";
               msg_content := error_message;
               msg_timestamp := now_isoformat t1;
               msg_type := "Text";
               msg_execution_trace := None;
               msg_agents_used := None;
               msg_error := Some e |},
            self)
  end.

(** The world, the conversation id and the history with which
    [process_query] requests the completion. *)
Definition at_completion (E : env) (self : AgentRuntime) (query : string)
    (conversation_id : option string) (w : world)
    : world * string * list turn :=
  let '(_, w) := run (read_clock E) w in
  let '(cid, w) :=
    run (if absent conversation_id then uuid4 E else mret (default "" conversation_id)) w in
  let '(t, w) := run (read_clock E) w in
  (w, cid, get_conversation_history self cid ++ [user_turn query (now_isoformat t)]).

End Runtime.

(** * Sessions: database/session.py *)

Module Sessions.

(** A row of the [sessions] table (models.py) *)
Record Session := {
  id : string;
  user_id : option string;
  session_token : string;
  expires_at : option Z;          (* nullable DateTime *)
  extra_data : option (list (string * pyval))
}.

(** The [sessions] table, by its unique indexed column [session_token]:
    [select(SessionModel).where(session_token == t)] followed by
    [scalar_one_or_none()] is the lookup at [t]. *)
Definition delete_session (db : gmap string Session) (session_token : string)
    : bool * gmap string Session :=
  match db !! session_token with
  | Some session => (true, delete session_token db)
  | None => (false, db)
  end.

Definition get_session (E : env) (db : gmap string Session) (session_token : string)
    : M (option Session * gmap string Session) :=
  match db !! session_token with
  | Some session =>
      match expires_at session with
      | Some expiry =>
          now ← read_clock E;
          if expiry <? now
          then mret (None, (delete_session db session_token).2)
          else mret (Some session, db)
      | None => mret (Some session, db)
      end
  | None => mret (None, db)
  end.

(** A session has expired at [now] when it has an expiry time before [now]. *)
Definition expired (s : Session) (now : Z) : Prop :=
  exists expiry, expires_at s = Some expiry /\ expiry < now.

End Sessions.

(** * The persisting runtime: enhanced_agent_runtime.py *)

Module Enhanced.

(** What the base stream yields: a dict, held by reference since the
    loop below writes into it, or something else. *)
Inductive chunk :=
| dict_chunk (l : nat)
| other_chunk (v : pyval).

(** A row of the [messages] table (models.py) *)
Record Message := {
  m_id : string;
  m_conversation_id : string;
  m_role : string;
  m_content : string;
  m_sender_id : option string;
  m_recipient_id : option string;
  m_message_type : option string;
  m_agents_used : option pyval
}.

(** The part of the database the loop writes to: the [messages] rows and
    [updated_at] of the conversations. *)
Record database := {
  messages : list Message;
  updated_at : gmap string timestamp
}.

(** The dict at a reference *)
Definition deref (h : gmap nat (gmap string pyval)) (l : nat) : gmap string pyval :=
  default ∅ (h !! l).

(** What the caller receives at a [yield]: the chunk, and for a dict what
    it holds at that moment. *)
Record yielded := {
  y_chunk : chunk;
  y_now : option (gmap string pyval)
}.

Definition yield_ (h : gmap nat (gmap string pyval)) (c : chunk) : yielded :=
  {| y_chunk := c;
     y_now := match c with dict_chunk l => Some (deref h l) | other_chunk _ => None end |}.

(** [chunk.get("complete", False)] as a condition *)
Definition complete (d : gmap string pyval) : bool :=
  truthy (default (PBool false) (d !! "complete")).

(** The loop [async for chunk in super().stream_process_query(...)] of
    [stream_process_query_with_persistence] (lines 154-194).  The lines
    before it resolve the user and the conversation and store the user
    message; their results are the arguments [conversation_id],
    [user_id] and [user_message_id].  [base] is what the wrapped stream
    yields, [h] the dicts it refers to. *)
Fixpoint persist_stream (E : env) (conversation_id user_id user_message_id : string)
    (base : list chunk) (full_response_content : string) (agents_used : pyval)
    (h : gmap nat (gmap string pyval)) (db : database)
    : M (list yielded * gmap nat (gmap string pyval) * database) :=
  match base with
  | [] => mret ([], h, db)
  | chunk :: rest =>
      let first := yield_ h chunk in
      match chunk with
      | other_chunk _ =>
          '(out, h, db) ← persist_stream E conversation_id user_id user_message_id
                            rest full_response_content agents_used h db;
          mret (first :: out, h, db)
      | dict_chunk l =>
          let d := deref h l in
          let full_response_content :=
            match d !! "content" with
            | Some v => full_response_content +:+ py_str E v
            | None => full_response_content
            end in
          let agents_used := default agents_used (d !! "agents_used") in
          if complete d then
            t ← read_clock E;
            assistant_message_id ← uuid4 E;
            let assistant_message :=
              {| m_id := assistant_message_id;
                 m_conversation_id := conversation_id;
                 m_role := "assistant";
                 m_content := full_response_content;
                 m_sender_id := Some "runtime";
                 m_recipient_id := Some user_id;
                 m_message_type := Some "text";
                 m_agents_used := Some agents_used |} in
            let db :=
              {| messages := messages db ++ [assistant_message];
                 updated_at := <[conversation_id := utcnow t]> (updated_at db) |} in
            let h :=
              <[l := <["assistant_message_id" := PStr assistant_message_id]>
                       (<["user_message_id" := PStr user_message_id]> d)]> h in
            let second := yield_ h chunk in
            '(out, h, db) ← persist_stream E conversation_id user_id user_message_id
                              rest full_response_content agents_used h db;
            mret (first :: second :: out, h, db)
          else
            '(out, h, db) ← persist_stream E conversation_id user_id user_message_id
                              rest full_response_content agents_used h db;
            mret (first :: out, h, db)
      end
  end.

Definition stream_process_query_with_persistence (E : env)
    (conversation_id user_id user_message_id : string)
    (base : list chunk) (h : gmap nat (gmap string pyval)) (db : database)
    : M (list yielded * gmap nat (gmap string pyval) * database) :=
  persist_stream E conversation_id user_id user_message_id base "" (PList []) h db.

(** The dicts a stream refers to *)
Definition refs (base : list chunk) : list nat :=
  flat_map (fun c => match c with dict_chunk l => [l] | other_chunk _ => [] end) base.

(** A chunk that signals [complete] *)
Definition terminal (h : gmap nat (gmap string pyval)) (c : chunk) : bool :=
  match c with
  | dict_chunk l => complete (deref h l)
  | other_chunk _ => false
  end.

(** What the caller of the loop receives, stated on the stream [base] over
    the dicts [h] it arrives with: every chunk as it is, and a chunk that
    signals [complete] once more, with the two message ids written into it;
    [n] counts the uuids drawn before. *)
Fixpoint forwarded (E : env) (user_message_id : string)
    (h : gmap nat (gmap string pyval)) (n : nat) (base : list chunk) : list yielded :=
  match base with
  | [] => []
  | c :: rest =>
      if terminal h c then
        yield_ h c ::
        {| y_chunk := c;
           y_now :=
             match c with
             | dict_chunk l =>
                 Some (<["assistant_message_id" := PStr (uuid_src E n)]>
                         (<["user_message_id" := PStr user_message_id]> (deref h l)))
             | other_chunk _ => None
             end |} ::
        forwarded E user_message_id h (S n) rest
      else yield_ h c :: forwarded E user_message_id h n rest
  end.

(** The ids of the assistant rows the loop stores: a fresh uuid for every
    chunk that signals [complete]. *)
Fixpoint assistant_ids (E : env) (h : gmap nat (gmap string pyval)) (n : nat)
    (base : list chunk) : list string :=
  match base with
  | [] => []
  | c :: rest =>
      if terminal h c then uuid_src E n :: assistant_ids E h (S n) rest
      else assistant_ids E h n rest
  end.

End Enhanced.

(** * Sample environments for the examples *)

Module Samples.

Definition sample_env : env :=
  {| uuid_src := fun n => "uuid-" +:+ pretty n;
     time_src := fun n => 1000 + Z.of_nat n;
     str_of := fun _ => "?" |}.

Definition world0 : world :=
  {| uuid_count := 0; clock_count := 0; last_called_agent := None;
     last_agent_response := None; event_queue := []; posts := [] |}.

Definition agent (i n e : string) : Runtime.AgentPlugin :=
  {| Runtime.id := i; Runtime.name := n; Runtime.endpoint := e;
     Runtime.description := ""; Runtime.capabilities := [];
     Runtime.conversation_starters := []; Runtime.has_event_queue := false |}.

(** Three agents that answer "A", "B" and "C" *)
Definition post3 : Runtime.http := fun ep _ =>
  if (ep =? "http://a")%string then Runtime.replied 200 (Some "A")
  else if (ep =? "http://b")%string then Runtime.replied 200 (Some "B")
  else Runtime.replied 200 (Some "C").

Definition answer3 (a : Runtime.AgentPlugin) : string :=
  if (Runtime.endpoint a =? "http://a")%string then "A"
  else if (Runtime.endpoint a =? "http://b")%string then "B"
  else "C".

Definition chat3 : Runtime.AgentGroupChat :=
  {| Runtime.agents :=
       [agent "a" "Agent A" "http://a"; agent "b" "Agent B" "http://b";
        agent "c" "Agent C" "http://c"];
     Runtime.termination_strategy := {| Runtime.max_iterations := 0 |};
     Runtime.messages := [] |}.

Definition runtime0 : Runtime.AgentRuntime :=
  {| Runtime.rt_agents := []; Runtime.conversations := ∅;
     Runtime.enable_streaming := false |}.

(** A completion that called the math agent's function *)
Definition chat_calls_math : Runtime.chat_service := fun _ =>
  mret (inr (Runtime.many
    [{| Runtime.content_attr := Some "4";
        Runtime.first_item_text := None;
        Runtime.function_calls_attr :=
          Some [{| Runtime.fc_name := "math_agent-call_agent";
                   Runtime.fc_arguments := "{}" |}];
        Runtime.str_attr := "4" |}])).

(** A completion service that raises *)
Definition chat_raises : Runtime.chat_service := fun _ => mret (inl "boom").

(** A stream of one content chunk and the terminal chunk *)
Definition dicts2 : gmap nat (gmap string pyval) :=
  <[0%nat := {["content" := PStr "Hi"]}]>
    (<[1%nat := <["complete" := PBool true]> {["response" := PStr "Hi"]}]> ∅).

Definition stream2 : list Enhanced.chunk :=
  [Enhanced.dict_chunk 0; Enhanced.dict_chunk 1].

Definition db0 : Enhanced.database :=
  {| Enhanced.messages := []; Enhanced.updated_at := ∅ |}.

Definition session (tok : string) (exp : option Z) : Sessions.Session :=
  {| Sessions.id := "s-" +:+ tok; Sessions.user_id := None;
     Sessions.session_token := tok; Sessions.expires_at := exp;
     Sessions.extra_data := None |}.

End Samples.

(** * Loading the agents: [AgentPlugin.__init__] and [load_config] of
    agent_runtime.py *)

Module Config.
Import Runtime.

(** One entry of the [agents] list of the configuration file: the keys it
    has. *)
Record agent_config := {
  cfg_id : option string;
  cfg_name : option string;
  cfg_endpoint : option string;
  cfg_description : option string;
  cfg_capabilities : option (list string);
  cfg_conversation_starters : option (list string)
}.

(** [AgentPlugin(agent_config)]; [None] is the [KeyError] of a missing
    [id], [name] or [endpoint]. *)
Definition init (agent_config : agent_config) : option AgentPlugin :=
  id ← cfg_id agent_config;
  name ← cfg_name agent_config;
  endpoint ← cfg_endpoint agent_config;
  Some {| id := id;
          name := name;
          endpoint := endpoint;
          description :=
            default ("Call the " +:+ name +:+ " agent") (cfg_description agent_config);
          capabilities := default [] (cfg_capabilities agent_config);
          conversation_starters := default [] (cfg_conversation_starters agent_config);
          has_event_queue := false |}.

(** The configuration document: its [settings] key with the
    [enable_streaming] key of that, and its [agents] key. *)
Record config := {
  settings : option (option bool);
  agents_key : option (list agent_config)
}.

(** The loop [for agent_config in config.get("agents", [])]; an exception
    leaves it. *)
Fixpoint load_agents (agents : dict AgentPlugin) (l : list agent_config)
    : dict AgentPlugin :=
  match l with
  | [] => agents
  | agent_config :: rest =>
      match init agent_config with
      | Some agent => load_agents (dict_set agents (id agent) agent) rest
      | None => agents
      end
  end.

(** [load_config]; [file] is what [json.load] returned, [None] when opening
    or parsing the file raised.  Every exception is caught and printed. *)
Definition load_config (self : AgentRuntime) (file : option config) : AgentRuntime :=
  match file with
  | None => self
  | Some config =>
      let enable_streaming :=
        match settings config with
        | Some settings => default false settings
        | None => enable_streaming self
        end in
      {| rt_agents := load_agents (rt_agents self) (default [] (agents_key config));
         conversations := conversations self;
         enable_streaming := enable_streaming |}
  end.

Definition get_agent_by_id (self : AgentRuntime) (agent_id : string) : option AgentPlugin :=
  dict_get (rt_agents self) agent_id.

Definition get_all_agents (self : AgentRuntime) : dict AgentPlugin :=
  rt_agents self.

End Config.

(** * The HTTP handlers: api/runtime_api.py and api/enhanced_runtime_api.py *)

Module Api.
Import Runtime.

(** The agents of a group chat (runtime_api.py, lines 199-204): the named
    agents that exist, in the order named, or every registered agent, in
    the order of registration, when [agent_ids] is missing or empty. *)
Definition group_chat_agents (runtime : AgentRuntime) (agent_ids : option (list string))
    : list AgentPlugin :=
  match agent_ids with
  | Some (agent_id :: ids) => omap (Config.get_agent_by_id runtime) (agent_id :: ids)
  | _ => dict_values (Config.get_all_agents runtime)
  end.

Definition new_group_chat (runtime : AgentRuntime) (agent_ids : option (list string))
    (max_iterations : Z) : AgentGroupChat :=
  {| agents := group_chat_agents runtime agent_ids;
     termination_strategy := {| Runtime.max_iterations := max_iterations |};
     messages := [] |}.

(** The handler [group_chat] of runtime_api.py past its streaming case
    (neither the request nor the runtime asks for streaming): the chat is
    built for the request and dropped after it. *)
Definition group_chat (E : env) (post : http) (runtime : AgentRuntime)
    (agent_ids : option (list string)) (max_iterations : Z)
    (query user_id : string) (conversation_id : option string) (verbose : bool)
    : M group_message :=
  '(response, _) ← group_process_query E post
                     (new_group_chat runtime agent_ids max_iterations)
                     query user_id conversation_id verbose;
  mret response.

(** [get_session_from_token] and [get_user_from_session]
    (enhanced_runtime_api.py), the dependencies of the handlers on the
    [X-Session-Token] header. *)
Definition get_session_from_token (E : env) (db : gmap string Sessions.Session)
    (session_token : option string)
    : M (option string * gmap string Sessions.Session) :=
  if absent session_token then mret (None, db)
  else
    '(session, db) ← Sessions.get_session E db (default "" session_token);
    mret (match session with Some session => Some (Sessions.id session) | None => None end,
          db).

Definition get_user_from_session (E : env) (db : gmap string Sessions.Session)
    (session_token : option string)
    : M (option string * gmap string Sessions.Session) :=
  if absent session_token then mret (None, db)
  else
    '(session, db) ← Sessions.get_session E db (default "" session_token);
    mret (match session with Some session => Sessions.user_id session | None => None end,
          db).

(** The session and the user a query runs under (the handler
    [process_query] of enhanced_runtime_api.py, lines 221-236): from the
    header, then from the request's [session_token], then from its
    [user_id]. *)
Definition resolve_identity (E : env) (db : gmap string Sessions.Session)
    (header_token request_session_token request_user_id : option string)
    : M (option string * option string * gmap string Sessions.Session) :=
  '(session_id, db) ← get_session_from_token E db header_token;
  '(user_id, db) ← get_user_from_session E db header_token;
  '(session_id, user_id, db) ←
    (if absent request_session_token then mret (session_id, user_id, db)
     else
       '(session, db) ← Sessions.get_session E db (default "" request_session_token);
       match session with
       | Some session => mret (Some (Sessions.id session), Sessions.user_id session, db)
       | None => mret (session_id, user_id, db)
       end);
  let user_id := if absent request_user_id then user_id else request_user_id in
  mret (session_id, user_id, db).

End Api.

(** * Users, conversations and stored messages: database/session.py and
    the non-streaming half of enhanced_agent_runtime.py *)

Module Persistence.
Import Runtime.

(** What the database raises *)
Inductive db_error :=
| MultipleResultsFound
| IntegrityError.

(** [result.scalar_one_or_none()] *)
Definition scalar_one_or_none {A} (rows : list A) : db_error + option A :=
  match rows with
  | [] => inr None
  | [row] => inr (Some row)
  | _ => inl MultipleResultsFound
  end.

(** A row of [users]: the primary key [id], the unique nullable columns
    [username] and [email].  The columns the database fills in
    ([created_at], [updated_at]) are left out of the rows below. *)
Record User := {
  u_id : string;
  u_username : option string;
  u_email : option string
}.

(** A row of [conversations] *)
Record Conversation := {
  c_id : string;
  c_session_id : option string;
  c_user_id : option string;
  c_title : option string;
  c_extra_data : list (string * pyval)
}.

(** A row of [messages]: the columns of the streaming loop and
    [execution_trace]. *)
Record MessageRow := {
  columns : Enhanced.Message;
  execution_trace : option (list string)
}.

Record store := {
  users : list User;
  conversation_rows : gmap string Conversation;
  message_rows : list MessageRow;
  touched : gmap string timestamp        (* [updated_at] as set by the program *)
}.

Definition with_users (st : store) (us : list User) : store :=
  {| users := us; conversation_rows := conversation_rows st;
     message_rows := message_rows st; touched := touched st |}.

Definition same (a : option string) (b : string) : bool :=
  match a with
  | Some a => (a =? b)%string
  | None => false
  end.

(** [db.add(user)] and [db.commit()]: the insert is refused when the
    primary key or a unique column that is not null is taken. *)
Definition add_user (us : list User) (user : User) : db_error + list User :=
  if existsb (fun v => (u_id v =? u_id user)%string) us
     || match u_username user with
        | Some n => existsb (fun v => same (u_username v) n) us
        | None => false
        end
     || match u_email user with
        | Some e => existsb (fun v => same (u_email v) e) us
        | None => false
        end
  then inl IntegrityError
  else inr (us ++ [user]).

(** session.py, [get_or_create_anonymous_user] *)
Definition get_or_create_anonymous_user (E : env) (us : list User)
    : M (db_error + User * list User) :=
  match scalar_one_or_none (filter (fun u => same (u_username u) "anonymous" = true) us) with
  | inl e => mret (inl e)
  | inr (Some user) => mret (inr (user, us))
  | inr None =>
      id ← uuid4 E;
      let user := {| u_id := id; u_username := Some "anonymous"; u_email := None |} in
      match add_user us user with
      | inl e => mret (inl e)
      | inr us => mret (inr (user, us))
      end
  end.

(** session.py, [create_conversation] *)
Definition create_conversation (E : env) (rows : gmap string Conversation)
    (session_id user_id title : option string)
    (extra_data : option (list (string * pyval)))
    : M (db_error + Conversation * gmap string Conversation) :=
  id ← uuid4 E;
  let conversation :=
    {| c_id := id; c_session_id := session_id; c_user_id := user_id;
       c_title := title; c_extra_data := default [] extra_data |} in
  match rows !! id with
  | Some _ => mret (inl IntegrityError)
  | None => mret (inr (conversation, <[id := conversation]> rows))
  end.

(** session.py, [get_conversation] *)
Definition get_conversation (rows : gmap string Conversation) (conversation_id : string)
    : option Conversation :=
  rows !! conversation_id.

(** [query[:50] + "..." if len(query) > 50 else query] *)
Definition title_of (query : string) : string :=
  if (50 <? str_len query)%nat then str_take 50 query +:+ "..." else query.

(** [db.add(message)] and [db.commit()]; the primary key is drawn when the
    row is written. *)
Definition add_message (E : env) (rows : list MessageRow) (fill : string -> MessageRow)
    : M (db_error + MessageRow * list MessageRow) :=
  id ← uuid4 E;
  if existsb (fun r => (Enhanced.m_id (columns r) =? id)%string) rows
  then mret (inl IntegrityError)
  else mret (inr (fill id, rows ++ [fill id])).

(** The dict [process_query_with_persistence] returns: the message of
    [process_query] and the three keys added to it. *)
Record persisted := {
  reply : message;
  p_conversation_id : string;
  p_user_message_id : string;
  p_assistant_message_id : string
}.

(** The user a query runs under (lines 43-50) *)
Definition resolve_user (E : env) (us : list User) (user_id : option string)
    : M (db_error + User * list User) :=
  if absent user_id then get_or_create_anonymous_user E us
  else
    match scalar_one_or_none
            (filter (fun u => (u_id u =? default "" user_id)%string = true) us) with
    | inl e => mret (inl e)
    | inr (Some user) => mret (inr (user, us))
    | inr None => get_or_create_anonymous_user E us
    end.

(** The conversation a query runs in (lines 53-64) *)
Definition resolve_conversation (E : env) (rows : gmap string Conversation)
    (conversation_id session_id : option string) (user : User) (query : string)
    : M (db_error + Conversation * gmap string Conversation) :=
  let db_conversation :=
    if absent conversation_id then None
    else get_conversation rows (default "" conversation_id) in
  match db_conversation with
  | Some c => mret (inr (c, rows))
  | None =>
      create_conversation E rows session_id (Some (u_id user)) (Some (title_of query)) None
  end.

Definition with_conversations (st : store) (rows : gmap string Conversation) : store :=
  {| users := users st; conversation_rows := rows;
     message_rows := message_rows st; touched := touched st |}.

Definition with_messages (st : store) (rows : list MessageRow) : store :=
  {| users := users st; conversation_rows := conversation_rows st;
     message_rows := rows; touched := touched st |}.

Definition touch (st : store) (conversation_id : string) (t : timestamp) : store :=
  {| users := users st; conversation_rows := conversation_rows st;
     message_rows := message_rows st;
     touched := <[conversation_id := t]> (touched st) |}.

(** enhanced_agent_runtime.py, [process_query_with_persistence].  An
    exception leaves the function; what was committed before it stays, so
    the store comes back in either case. *)
Definition process_query_with_persistence (E : env) (chat : chat_service)
    (self : AgentRuntime) (st : store) (query : string)
    (conversation_id session_id user_id : option string) (verbose : bool)
    : M ((db_error + persisted) * AgentRuntime * store) :=
  r ← resolve_user E (users st) user_id;
  match r with
  | inl e => mret (inl e, self, st)
  | inr (user, us) =>
      let st := with_users st us in
      r ← resolve_conversation E (conversation_rows st) conversation_id session_id user query;
      match r with
      | inl e => mret (inl e, self, st)
      | inr (db_conversation, rows) =>
          let st := with_conversations st rows in
          let conversation_id := c_id db_conversation in
          r ← add_message E (message_rows st) (fun id =>
                 {| columns :=
                      {| Enhanced.m_id := id;
                         Enhanced.m_conversation_id := conversation_id;
                         Enhanced.m_role := "user";
                         Enhanced.m_content := query;
                         Enhanced.m_sender_id := Some (u_id user);
                         Enhanced.m_recipient_id := None;
                         Enhanced.m_message_type := Some "text";
                         Enhanced.m_agents_used := None |};
                    execution_trace := None |});
          match r with
          | inl e => mret (inl e, self, st)
          | inr (user_row, rows) =>
              let st := with_messages st rows in
              '(result, self) ← process_query E chat self query (Some conversation_id)
                                  verbose None;
              r ← add_message E (message_rows st) (fun id =>
                     {| columns :=
                          {| Enhanced.m_id := id;
                             Enhanced.m_conversation_id := conversation_id;
                             Enhanced.m_role := "assistant";
                             Enhanced.m_content := msg_content result;
                             Enhanced.m_sender_id := Some "runtime";
                             Enhanced.m_recipient_id := Some (u_id user);
                             Enhanced.m_message_type := Some "text";
                             Enhanced.m_agents_used :=
                               Some (PList (PStr <$> default [] (msg_agents_used result))) |};
                        execution_trace := Some (default [] (msg_execution_trace result)) |});
              match r with
              | inl e => mret (inl e, self, st)
              | inr (assistant_row, rows) =>
                  let st := with_messages st rows in
                  t ← read_clock E;
                  let st := touch st conversation_id (utcnow t) in
                  mret (inr {| reply := result;
                               p_conversation_id := conversation_id;
                               p_user_message_id := Enhanced.m_id (columns user_row);
                               p_assistant_message_id :=
                                 Enhanced.m_id (columns assistant_row) |},
                        self, st)
              end
          end
      end
  end.

(** enhanced_agent_runtime.py, [delete_conversation]; deleting the
    conversation deletes its messages with it (the cascade declared on
    [Conversation.messages] in models.py). *)
Definition delete_conversation (st : store) (conversation_id : string) : bool * store :=
  match get_conversation (conversation_rows st) conversation_id with
  | None => (false, st)
  | Some _ =>
      (true,
       {| users := users st;
          conversation_rows := delete conversation_id (conversation_rows st);
          message_rows :=
            filter (fun r =>
                      (Enhanced.m_conversation_id (columns r) =? conversation_id)%string
                        = false)
              (message_rows st);
          touched := delete conversation_id (touched st) |})
  end.

(** The text the streaming loop stores: every [content] value seen so far,
    in order. *)
Definition content_of (E : env) (h : gmap nat (gmap string pyval)) (c : Enhanced.chunk)
    : string :=
  match c with
  | Enhanced.dict_chunk l =>
      match Enhanced.deref h l !! "content" with
      | Some v => py_str E v
      | None => ""
      end
  | Enhanced.other_chunk _ => ""
  end.

Definition contents (E : env) (h : gmap nat (gmap string pyval))
    (base : list Enhanced.chunk) : string :=
  String.concat "" (map (content_of E h) base).

(** The [agents_used] values a stream carries *)
Definition agents_used_of (h : gmap nat (gmap string pyval)) (c : Enhanced.chunk)
    : option pyval :=
  match c with
  | Enhanced.dict_chunk l => Enhanced.deref h l !! "agents_used"
  | Enhanced.other_chunk _ => None
  end.

End Persistence.

Module MoreSamples.

Definition two_agents : list Config.agent_config :=
  [{| Config.cfg_id := Some "hello-agent"; Config.cfg_name := Some "Hello";
      Config.cfg_endpoint := Some "http://h"; Config.cfg_description := None;
      Config.cfg_capabilities := None; Config.cfg_conversation_starters := None |};
   {| Config.cfg_id := Some "math-agent"; Config.cfg_name := Some "Math";
      Config.cfg_endpoint := Some "http://m"; Config.cfg_description := Some "sums";
      Config.cfg_capabilities := Some ["add"]; Config.cfg_conversation_starters := None |}].

Definition no_endpoint : Config.agent_config :=
  {| Config.cfg_id := Some "broken"; Config.cfg_name := Some "Broken";
     Config.cfg_endpoint := None; Config.cfg_description := None;
     Config.cfg_capabilities := None; Config.cfg_conversation_starters := None |}.

Definition config_file (agents : list Config.agent_config) : Config.config :=
  {| Config.settings := Some None; Config.agents_key := Some agents |}.

(** The runtime after loading the two agents, hello-agent first *)
Definition runtime_hm : Runtime.AgentRuntime :=
  Config.load_config Samples.runtime0 (Some (config_file two_agents)).

Definition bob_session : Sessions.Session :=
  {| Sessions.id := "s-bob"; Sessions.user_id := Some "bob";
     Sessions.session_token := "bob-token"; Sessions.expires_at := None;
     Sessions.extra_data := None |}.

Definition sessions2 : gmap string Sessions.Session :=
  <["guest" := Samples.session "guest" None]> (<["bob-token" := bob_session]> ∅).

(** The two bytes of U+00E9 in UTF-8, and [n * s] *)
Definition e_acute : string :=
  String (ascii_of_nat 195) (String (ascii_of_nat 169) EmptyString).

Fixpoint times (n : nat) (s : string) : string :=
  match n with
  | O => EmptyString
  | S n => s +:+ times n s
  end.

Definition store0 : Persistence.store :=
  {| Persistence.users := []; Persistence.conversation_rows := ∅;
     Persistence.message_rows := []; Persistence.touched := ∅ |}.

End MoreSamples.

(** * Properties of the math operations *)

Section Search.


(** The scan over an ascending range stops at the least hit. *)
Lemma search_seqZ a m (n : nat) : forall lo,
  match Tools.search a m (seqZ lo (Z.of_nat n)) with
  | Some x =>
      lo <= x < lo + Z.of_nat n /\ (a * x) mod m = 1 /\
      forall y, lo <= y < x -> (a * y) mod m <> 1
  | None => forall y, lo <= y < lo + Z.of_nat n -> (a * y) mod m <> 1
  end.
Proof.
  induction n as [|n IH]; intros lo.
  - rewrite seqZ_nil by lia. simpl. lia.
  - rewrite seqZ_cons by lia.
    replace (Z.pred (Z.of_nat (S n))) with (Z.of_nat n) by lia.
    simpl. destruct (Z.eqb_spec ((a * lo) mod m) 1) as [Hhit|Hmiss].
    + split; [lia|]. split; [done|]. intros y Hy. lia.
    + specialize (IH (Z.succ lo)).
      destruct (Tools.search a m (seqZ (Z.succ lo) (Z.of_nat n))) as [x|].
      * destruct IH as (Hx & Hm & Hmin). split; [lia|]. split; [done|].
        intros y Hy. destruct (Z.eq_dec y lo) as [->|]; [done|].
        apply Hmin. lia.
      * intros y Hy. destruct (Z.eq_dec y lo) as [->|]; [done|].
        apply IH. lia.
Qed.

Lemma search_range a m :
  match Tools.search a m (range 1 m) with
  | Some x =>
      1 <= x < m /\ (a * x) mod m = 1 /\
      forall y, 1 <= y < x -> (a * y) mod m <> 1
  | None => forall y, 1 <= y < m -> (a * y) mod m <> 1
  end.
Proof.
  unfold range. destruct (Z_lt_le_dec m 1) as [Hsmall|Hbig].
  - rewrite seqZ_nil by lia. simpl. lia.
  - pose proof (search_seqZ a m (Z.to_nat (m - 1)) 1) as H.
    rewrite Z2Nat.id in H by lia.
    destruct (Tools.search a m (seqZ 1 (m - 1))); [|intros; apply H; lia].
    destruct H as (Hx & Hm & Hmin). split; [lia|]. split; [done|].
    intros y Hy. apply Hmin. lia.
Qed.



End Search.

Lemma modular_inverse_zero_modulus a : Tools.modular_inverse a 0 = Raise ZeroDivisionError.
Proof. reflexivity. Qed.

Lemma modular_inverse_unfold a m :
  m <> 0 ->
  Tools.modular_inverse a m =
    match Tools.search (a mod m) m (range 1 m) with
    | Some x => Ok x
    | None => Raise (NotFound (a mod m) m)
    end.
Proof.
  intros Hm. unfold Tools.modular_inverse, int_, int_mod.
  destruct (Z.eqb_spec m 0); [done|]. reflexivity.
Qed.


(** [b == 0] on a float is the IEEE comparison with zero. *)
Lemma float_eq_zero (b : float) : Py.eq (PyFloat b) (PyInt 0) = (b =? 0)%float.
Proof.
  rewrite FloatAxioms.eqb_spec. unfold Py.eq, cmp, cmp_int_float.
  change (Prim2SF 0) with (S754_zero false).
  destruct (Prim2SF b) as [s| | |s m e]; simpl; try done.
  - by destruct s.
  - destruct s; destruct (Z.leb_spec 0 e) as [He|He]; cbn; try done.
    + pose proof (Z.pow_pos_nonneg 2 e ltac:(lia) He).
      destruct (Z.neg m * 2 ^ e) eqn:Hv; cbn; try done; lia.
    + pose proof (Z.pow_pos_nonneg 2 e ltac:(lia) He).
      destruct (Z.pos m * 2 ^ e) eqn:Hv; cbn; try done; lia.
Qed.






(** C3, as the code has it: on floats, the declared argument type, Divide
    raises InvalidInput "Cannot divide by zero." exactly when the divisor
    is zero and otherwise returns the quotient.  On any number the divisor
    is converted with [float()] first, then tested, then the dividend is
    converted: a conversion that fails (an int beyond the float range)
    makes Divide fail with its error, and no other error than these
    arises.  Modulo raises InvalidInput "Cannot modulo by zero." exactly
    when the divisor is zero and otherwise returns the remainder, whose
    sign follows the divisor; Modulo(7, 3) = 1. *)
Theorem divide_modulo_zero_guard :
  (forall a b : float,
     Tools.divide (PyFloat a) (PyFloat b) =
       if (b =? 0)%float then Raise (InvalidInput "Cannot divide by zero.")
       else Ok (PyFloat (a / b)%float)) /\
  (forall a b : float,
     Tools.divide (PyFloat a) (PyFloat b) = Raise (InvalidInput "Cannot divide by zero.")
     <-> (b =? 0)%float = true) /\
  (forall a b : number,
     Tools.divide a b =
       match float_ b with
       | Raise e => Raise e
       | Ok y =>
           if (y =? 0)%float then Raise (InvalidInput "Cannot divide by zero.")
           else match float_ a with
                | Raise e => Raise e
                | Ok x => Ok (PyFloat (x / y)%float)
                end
       end) /\
  (forall (a b : number) (e : exn),
     Tools.divide a b = Raise e ->
     e = InvalidInput "Cannot divide by zero." \/ e = OverflowError) /\
  (forall a b : Z,
     Tools.modulo a b =
       if b =? 0 then Raise (InvalidInput "Cannot modulo by zero.") else Ok (a mod b)) /\
  (forall a b : Z,
     Tools.modulo a b = Raise (InvalidInput "Cannot modulo by zero.") <-> b = 0) /\
  (forall a b r : Z,
     Tools.modulo a b = Ok r ->
     (exists q, a = q * b + r) /\ (0 < b -> 0 <= r < b) /\ (b < 0 -> b < r <= 0)) /\
  Tools.modulo 7 3 = Ok 1.
Proof.
  assert (Hdiv : forall a b : float,
     Tools.divide (PyFloat a) (PyFloat b) =
       if (b =? 0)%float then Raise (InvalidInput "Cannot divide by zero.")
       else Ok (PyFloat (a / b)%float)).
  { intros a b. unfold Tools.divide, float_truediv. simpl.
    rewrite float_eq_zero. by destruct (b =? 0)%float. }
  assert (Hmod : forall a b : Z,
     Tools.modulo a b =
       if b =? 0 then Raise (InvalidInput "Cannot modulo by zero.") else Ok (a mod b)).
  { intros a b. unfold Tools.modulo, int_, int_mod. by destruct (b =? 0). }
  assert (Hnum : forall a b : number,
     Tools.divide a b =
       match float_ b with
       | Raise e => Raise e
       | Ok y =>
           if (y =? 0)%float then Raise (InvalidInput "Cannot divide by zero.")
           else match float_ a with
                | Raise e => Raise e
                | Ok x => Ok (PyFloat (x / y)%float)
                end
       end).
  { intros a b. unfold Tools.divide, float_truediv.
    destruct (float_ b) as [y|e]; simpl; [|done].
    rewrite float_eq_zero. destruct (y =? 0)%float eqn:Hy; [done|].
    destruct (float_ a) as [x|e]; simpl; by rewrite ?Hy. }
  split; [exact Hdiv|]. split.
  { intros a b. rewrite Hdiv. destruct (b =? 0)%float; split; done. }
  split; [exact Hnum|]. split.
  { intros a b e. rewrite Hnum.
    destruct (float_ b) as [y|e'] eqn:Hb.
    - destruct (y =? 0)%float; [intros [= <-]; by left|].
      destruct (float_ a) as [x|e''] eqn:Ha; [done|].
      intros [= <-]. right. destruct a as [z|f]; simpl in Ha; [|done].
      destruct (binary_normalize prec emax z 0 false); congruence.
    - intros [= <-]. right. destruct b as [z|f]; simpl in Hb; [|done].
      destruct (binary_normalize prec emax z 0 false); congruence. }
  split; [exact Hmod|]. split.
  { intros a b. rewrite Hmod. destruct (Z.eqb_spec b 0); split; done. }
  split; [|reflexivity].
  intros a b r. rewrite Hmod. destruct (Z.eqb_spec b 0) as [|Hb]; [done|].
  intros [= <-]. split; [|split].
  - exists (a / b). pose proof (Z.div_mod a b Hb). lia.
  - intros Hpos. apply Z.mod_pos_bound. lia.
  - intros Hneg. apply Z.mod_neg_bound. lia.
Qed.

(** C3, as stated, fails: the divisor [10^400] is not zero, and Divide
    neither returns a quotient nor raises InvalidInput, for the int is
    beyond the float range and [float(b)] raises OverflowError. *)
Lemma divide_int_beyond_float_range :
  Py.eq (PyInt (10 ^ 400)) (PyInt 0) = false /\
  Tools.divide (PyInt 1) (PyInt (10 ^ 400)) = Raise OverflowError /\
  Tools.divide (PyInt 1) (PyInt (10 ^ 400)) <> Raise (InvalidInput "Cannot divide by zero.") /\
  forall q, Tools.divide (PyInt 1) (PyInt (10 ^ 400)) <> Ok q.
Proof.
  assert (H : Tools.divide (PyInt 1) (PyInt (10 ^ 400)) = Raise OverflowError)
    by (vm_compute; reflexivity).
  split; [vm_compute; reflexivity|]. split; [exact H|].
  rewrite H. split; [discriminate | intros q; discriminate].
Qed.



(** * Properties of the runtime *)

Lemma run_bind {A B} (m : M A) (f : A -> M B) w :
  run (m ≫= f) w = let '(a, w') := run m w in run (f a) w'.
Proof. reflexivity. Qed.

Section GenerateRequest.
Import Runtime.

(** C8: the request built for an agent has [type] 0 exactly when the
    agent's id is "goodbye-agent" and "Text" otherwise; the message id is
    a fresh uuid, the conversation id is the given one or a fresh uuid,
    sender, recipient (the agent id), content and the UTC timestamp are
    filled in, and all of these but the recipient are the same for the
    goodbye agent and for any other agent. *)
Theorem generate_request_type (E : env) (self : AgentPlugin)
    (content sender_id : string) (conversation_id : option string) (w : world) :
  let '(r, w') := run (generate_request E self content sender_id conversation_id) w in
  (rq_type r = PInt 0 <-> id self = "goodbye-agent") /\
  (rq_type r = PStr "Text" <-> id self <> "goodbye-agent") /\
  rq_conversationId r = default (uuid_src E (uuid_count w)) conversation_id /\
  rq_messageId r =
    uuid_src E (match conversation_id with Some _ => uuid_count w | None => S (uuid_count w) end) /\
  rq_senderId r = sender_id /\
  rq_recipientId r = id self /\
  rq_content r = content /\
  rq_timestamp r = strftime_gmtime (time_src E (clock_count w)) /\
  forall other : AgentPlugin,
    let '(r', w'') := run (generate_request E other content sender_id conversation_id) w in
    rq_messageId r' = rq_messageId r /\
    rq_conversationId r' = rq_conversationId r /\
    rq_senderId r' = rq_senderId r /\
    rq_content r' = rq_content r /\
    rq_timestamp r' = rq_timestamp r /\
    w'' = w'.
Proof.
  destruct conversation_id as [c|]; simpl;
    (destruct (String.eqb_spec (id self) "goodbye-agent") as [Heq|Hne];
     repeat split; try done; try (intros; congruence)).
Qed.

End GenerateRequest.


Section GetSession.
Import Sessions.

(** C6: [get_session] returns the stored session exactly when one with
    that token exists and has not expired; for an expired one it returns
    nothing and deletes the row, leaving the other rows as they were, so
    that any later lookup of the token finds nothing. *)
Theorem get_session_expiry (E : env) (db : gmap string Session) (token : string)
    (w : world) :
  let now := time_src E (clock_count w) in
  let '((found, db'), w') := run (get_session E db token) w in
  (forall s, found = Some s <-> db !! token = Some s /\ ~ expired s now) /\
  (forall s, db !! token = Some s -> expired s now ->
     found = None /\ db' = delete token db /\ db' !! token = None /\
     (forall token', token' <> token -> db' !! token' = db !! token') /\
     forall w2, (run (get_session E db' token) w2).1 = (None, db')) /\
  (found = None -> db !! token = None -> db' = db) /\
  (forall s, found = Some s -> db' = db).
Proof.
  intros now. unfold get_session, delete_session.
  destruct (db !! token) as [s|] eqn:Hlook; simpl.
  - destruct (expires_at s) as [expiry|] eqn:Hexp; simpl.
    + fold now. destruct (Z.ltb_spec expiry now) as [Hlt|Hge]; simpl.
      * split; [|split; [|split]]; try done.
        -- intros s'. split; [done|]. intros [[= <-] Hlive].
           destruct Hlive. by exists expiry.
        -- intros s' [= <-] _. split; [done|]. split; [done|].
           split; [apply lookup_delete_eq|].
           split; [intros token' Hne; by apply lookup_delete_ne|].
           intros w2. unfold get_session. by rewrite lookup_delete_eq.
      * split; [|split; [|split]]; try done.
        -- intros s'. split.
           ++ intros [= <-]. split; [done|]. intros (e & He & Hlt).
              rewrite Hexp in He. injection He as <-. lia.
           ++ by intros [[= <-] _].
        -- intros s' [= <-] (e & He & Hlt).
           rewrite Hexp in He. injection He as <-. lia.
    + split; [|split; [|split]]; try done.
      * intros s'. split.
        -- intros [= <-]. split; [done|]. intros (e & He & _). congruence.
        -- by intros [[= <-] _].
      * intros s' [= <-] (e & He & _). congruence.
  - split; [|split; [|split]]; try done.
    intros s. split; [done|]. by intros [? _].
Qed.

End GetSession.

Section ProcessQuery.
Import Runtime.

Lemma record_calls_spec query fcs au tr :
  record_calls query fcs au tr =
    (au ++ map (fun fc => agent_id_of (fc_name fc)) fcs,
     tr ++ map (fun fc => "Called " +:+ agent_id_of (fc_name fc)
                            +:+ " with query: " +:+ query) fcs).
Proof.
  revert au tr. induction fcs as [|fc fcs IH]; intros au tr; simpl.
  - by rewrite !app_nil_r.
  - rewrite IH, <- !app_assoc. reflexivity.
Qed.

Lemma before_first_app (sep : ascii) (p f : string) :
  before_first sep p = p -> before_first sep (p +:+ String sep f) = p.
Proof.
  induction p as [|c p IH]; simpl.
  - by rewrite Ascii.eqb_refl.
  - destruct (Ascii.eqb c sep); [done|]. intros [= Hp]. by rewrite IH.
Qed.

(** Undoing the renaming of [register_agent_plugins]: an agent id without
    an underscore is recovered from the reported function name. *)
Lemma agent_id_of_plugin_name (agent_id f : string) :
  replace "_"%char "-"%char agent_id = agent_id ->
  agent_id_of (plugin_name agent_id +:+ String "-"%char f) = agent_id.
Proof.
  intros Hid. unfold agent_id_of, plugin_name.
  rewrite before_first_app.
  - rewrite <- Hid at 2. clear Hid.
    induction agent_id as [|c a IH]; simpl; [done|]. rewrite IH. f_equal.
    destruct (Ascii.eqb_spec c "-"%char) as [->|Hc]; [done|].
    by destruct (Ascii.eqb c "_"%char).
  - clear Hid. induction agent_id as [|c a IH]; simpl; [done|].
    destruct (Ascii.eqb_spec c "-"%char) as [->|Hc]; simpl; [by rewrite IH|].
    destruct (Ascii.eqb_spec c "-"%char); [done|]. by rewrite IH.
Qed.

Lemma process_query_run E chat self query conversation_id verbose max_agents w :
  let '(w1, cid, history) := at_completion E self query conversation_id w in
  let self1 := set_conversation self cid history in
  run (process_query E chat self query conversation_id verbose max_agents) w =
    let '(result, w2) := run (chat (system_prompt :: map replay history)) w1 in
    match result with
    | inr result =>
        let ids := map (fun fc => agent_id_of (fc_name fc)) (function_calls_of result) in
        let trace :=
          map (fun fc => "Called " +:+ agent_id_of (fc_name fc)
                           +:+ " with query: " +:+ query) (function_calls_of result) in
        let '(message_id, w3) := run (uuid4 E) w2 in
        let '(t1, w4) := run (read_clock E) w3 in
        let '(t2, w5) := run (read_clock E) w4 in
        ({| msg_messageId := message_id;
            msg_conversationId := cid;
            msg_senderId := "runtime";
            msg_recipientId := "user";
            msg_content := response_content_of result;
            msg_timestamp := now_isoformat t1;
            msg_type := "Text";
            msg_execution_trace := Some (if verbose then trace else []);
            msg_agents_used := Some ids;
            msg_error := None |},
         set_conversation self1 cid
           (history ++ [assistant_turn (response_content_of result) (now_isoformat t2)
                          (if verbose then trace else []) ids]),
         w5)
    | inl e =>
        let '(message_id, w3) := run (uuid4 E) w2 in
        let '(t1, w4) := run (read_clock E) w3 in
        ({| msg_messageId := message_id;
            msg_conversationId := cid;
            msg_senderId := "runtime";
            msg_recipientId := "user";
            msg_content := "Error processing query: " +:+ e;
            msg_timestamp := now_isoformat t1;
            msg_type := "Text";
            msg_execution_trace := None;
            msg_agents_used := None;
            msg_error := Some e |},
         self1, w4)
    end.
Proof.
  unfold at_completion, process_query, get_conversation_history.
  destruct (absent conversation_id); simpl;
    (match goal with |- context [run (chat ?h) ?w] => destruct (run (chat h) w) as [[e|result] w2] end;
     simpl; [reflexivity|]; rewrite record_calls_spec; reflexivity).
Qed.

(** C4, as the code has it: for every function call reported by the
    completion, in order, the agent id appended to [agents_used] is the text
    of the function name before its first hyphen with every underscore
    turned into a hyphen, and [execution_trace] gains
    "Called <agent_id> with query: <query>" (returned and stored only when
    [verbose]).  For a function registered by [register_agent_plugins] under
    an agent id without underscores this is the agent id. *)
Theorem process_query_records_calls E chat self query conversation_id verbose
    max_agents w result w2 :
  let '(w1, cid, history) := at_completion E self query conversation_id w in
  run (chat (system_prompt :: map replay history)) w1 = (inr result, w2) ->
  let '((m, self'), w') :=
    run (process_query E chat self query conversation_id verbose max_agents) w in
  let ids :=
    map (fun fc => replace "_"%char "-"%char (before_first "-"%char (fc_name fc)))
      (function_calls_of result) in
  let trace := map (fun a => "Called " +:+ a +:+ " with query: " +:+ query) ids in
  msg_agents_used m = Some ids /\
  msg_execution_trace m = Some (if verbose then trace else []) /\
  (exists t,
     conversations self' !! cid =
       Some (history ++ [assistant_turn (response_content_of result) t
                           (if verbose then trace else []) ids])) /\
  (forall agent_id f,
     replace "_"%char "-"%char agent_id = agent_id ->
     agent_id_of (plugin_name agent_id +:+ String "-"%char f) = agent_id).
Proof.
  pose proof (process_query_run E chat self query conversation_id verbose max_agents w) as Hrun.
  destruct (at_completion E self query conversation_id w) as [[w1 cid] history].
  intros Hchat. cbv beta iota zeta in Hrun. rewrite Hchat in Hrun.
  rewrite Hrun. clear Hrun. simpl.
  split; [done|]. split; [by rewrite map_map|]. split.
  - eexists. rewrite lookup_insert_eq, map_map. reflexivity.
  - apply agent_id_of_plugin_name.
Qed.

Lemma process_query_records_calls_witness :
  msg_agents_used
    (run (process_query Samples.sample_env Samples.chat_calls_math Samples.runtime0
            "2+2" (Some "c1") true None) Samples.world0).1.1
  = Some ["math-agent"].
Proof.
  pose proof (process_query_records_calls Samples.sample_env Samples.chat_calls_math
                Samples.runtime0 "2+2" (Some "c1") true None Samples.world0
                _ _ eq_refl) as H.
  exact (proj1 H).
Defined.

(** C4, as stated, fails: the recorded agent id is not made from the text
    before the first underscore of the function name. *)
Lemma agent_id_not_before_underscore :
  msg_agents_used
    (run (process_query Samples.sample_env Samples.chat_calls_math Samples.runtime0
            "2+2" (Some "c1") true None) Samples.world0).1.1
  = Some ["math-agent"] /\
  before_first "_"%char "math_agent-call_agent" = "math" /\
  agent_id_of "math_agent-call_agent" <> before_first "_"%char "math_agent-call_agent" /\
  agent_id_of "math_agent-call_agent"
    <> before_first "_"%char "math_agent-call_agent" +:+ "-".
Proof.
  split; [vm_compute; reflexivity|]. split; [reflexivity|].
  split; vm_compute; discriminate.
Qed.

(** C10: when the completion raises [e] after the user turn was appended,
    [process_query] returns a message whose content is the failure text
    "Error processing query: <e>" and whose [error] is [e]; the stored
    conversation keeps the appended user turn and gains no assistant turn,
    so it is one entry longer than before the call. *)
Theorem process_query_error_keeps_user_turn E chat self query conversation_id
    verbose max_agents w e w2 :
  let '(w1, cid, history) := at_completion E self query conversation_id w in
  run (chat (system_prompt :: map replay history)) w1 = (inl e, w2) ->
  let '((m, self'), w') :=
    run (process_query E chat self query conversation_id verbose max_agents) w in
  msg_content m = "Error processing query: " +:+ e /\
  msg_error m = Some e /\
  msg_conversationId m = cid /\
  (exists t,
     get_conversation_history self' cid =
       get_conversation_history self cid ++ [user_turn query t]) /\
  length (get_conversation_history self' cid)
    = S (length (get_conversation_history self cid)) /\
  (forall other, other <> cid ->
     get_conversation_history self' other = get_conversation_history self other).
Proof.
  pose proof (process_query_run E chat self query conversation_id verbose max_agents w) as Hrun.
  unfold at_completion in *.
  destruct (run (read_clock E) w) as [t0 wa].
  destruct (run (if absent conversation_id then uuid4 E
                 else mret (default "" conversation_id)) wa) as [cid wb].
  destruct (run (read_clock E) wb) as [t wc].
  intros Hchat. cbv beta iota zeta in Hrun. rewrite Hchat in Hrun.
  rewrite Hrun. clear Hrun. simpl.
  split; [done|]. split; [done|]. split; [done|].
  unfold get_conversation_history, set_conversation. simpl.
  rewrite lookup_insert_eq. simpl.
  split; [by eexists|]. split.
  - rewrite length_app. simpl. lia.
  - intros other Hne. by rewrite lookup_insert_ne.
Qed.

Lemma process_query_error_keeps_user_turn_witness :
  let '((m, self'), w') :=
    run (process_query Samples.sample_env Samples.chat_raises Samples.runtime0
           "2+2" (Some "c1") true None) Samples.world0 in
  msg_content m = "Error processing query: boom" /\
  msg_error m = Some "boom" /\
  length (get_conversation_history self' "c1") = 1%nat.
Proof.
  pose proof (process_query_error_keeps_user_turn Samples.sample_env Samples.chat_raises
                Samples.runtime0 "2+2" (Some "c1") true None Samples.world0
                _ _ eq_refl) as H.
  vm_compute in H. vm_compute.
  destruct H as (H1 & H2 & _ & _ & H5 & _). auto.
Defined.

End ProcessQuery.

Section GroupChat.
Import Runtime.

Lemma call_agent_posts E post a query sender_id conversation_id w :
  posts (run (call_agent E post a query sender_id conversation_id) w).2
    = posts w ++ [(endpoint a, query)].
Proof.
  unfold call_agent, when. simpl.
  destruct (has_event_queue a), conversation_id; simpl;
    (match goal with |- context [post ?e ?r] => destruct (post e r) as [st b|err] end;
     simpl; [destruct (st =? 200); reflexivity | reflexivity]).
Qed.

Lemma call_agent_answer E post a query sender_id conversation_id w c :
  (forall req, post (endpoint a) req = replied 200 (Some c)) ->
  (run (call_agent E post a query sender_id conversation_id) w).1 = c.
Proof.
  intros Hpost. unfold call_agent, when. simpl.
  destruct (has_event_queue a), conversation_id; simpl; rewrite Hpost; reflexivity.
Qed.

Lemma call_agents_spec E post query user_id cid verbose agents :
  forall trace responses w,
  let '((tr, rs), w') :=
    run (call_agents E post agents query user_id cid verbose trace responses) w in
  posts w' = posts w ++ map (fun a => (endpoint a, query)) agents /\
  map agent_id rs = map agent_id responses ++ map id agents /\
  forall answer,
    Forall (fun a => forall req, post (endpoint a) req = replied 200 (Some (answer a))) agents ->
    map (fun r => rp_content (response r)) rs
      = map (fun r => rp_content (response r)) responses ++ map answer agents.
Proof.
  induction agents as [|a agents IH]; intros trace responses w.
  - simpl. rewrite !app_nil_r. auto.
  - cbn [call_agents]. rewrite run_bind.
    pose proof (call_agent_posts E post a query user_id (Some cid) w) as Hposts.
    pose proof (call_agent_answer E post a query user_id (Some cid) w) as Hanswer.
    destruct (run (call_agent E post a query user_id (Some cid)) w) as [c wa].
    simpl in Hposts, Hanswer. simpl.
    match goal with
    | |- context [run (call_agents E post agents query user_id cid verbose ?t ?r) ?w0] =>
        specialize (IH t r w0);
        destruct (run (call_agents E post agents query user_id cid verbose t r) w0)
          as [[tr rs] w']
    end.
    simpl in IH. destruct IH as (IHp & IHi & IHc).
    split; [|split].
    + rewrite IHp, Hposts, <- app_assoc. reflexivity.
    + rewrite IHi, map_app, <- app_assoc. reflexivity.
    + intros answer Hall. inversion Hall as [|? ? Ha Hrest]; subst.
      rewrite (IHc answer Hrest), map_app, <- app_assoc. simpl.
      by rewrite (Hanswer _ Ha).
Qed.

Lemma group_process_query_strategy E post self strategy query user_id
    conversation_id verbose w :
  run (group_process_query E post
         {| agents := agents self; termination_strategy := strategy;
            messages := messages self |}
         query user_id conversation_id verbose) w
  = let '((m, self'), w') :=
      run (group_process_query E post self query user_id conversation_id verbose) w in
    ((m, {| agents := agents self'; termination_strategy := strategy;
            messages := messages self' |}), w').
Proof.
  unfold group_process_query. simpl.
  destruct (run (if absent conversation_id then uuid4 E
                 else mret (default "" conversation_id)) w) as [cid wa].
  match goal with
  | |- context [run (call_agents ?a ?b ?c ?d ?e ?f ?g ?h ?i) ?w0] =>
      destruct (run (call_agents a b c d e f g h i) w0) as [[tr rs] wc]
  end.
  reflexivity.
Qed.

(** C5: [AgentGroupChat.process_query] posts the query to every configured
    agent exactly once, in the configured order, whatever the termination
    strategy is (the result is the same for every strategy); when the
    agents answer, the content is their answers joined by single spaces in
    call order and [agent_responses] has one entry per agent in that order. *)
Theorem group_chat_calls_every_agent E post self query user_id conversation_id
    verbose w :
  let '((m, self'), w') :=
    run (group_process_query E post self query user_id conversation_id verbose) w in
  posts w' = posts w ++ map (fun a => (endpoint a, query)) (agents self) /\
  map agent_id (gm_agent_responses m) = map id (agents self) /\
  length (gm_agent_responses m) = length (agents self) /\
  gm_content m =
    String.concat " " (map (fun r => rp_content (response r)) (gm_agent_responses m)) /\
  (forall strategy,
     run (group_process_query E post
            {| agents := agents self; termination_strategy := strategy;
               messages := messages self |}
            query user_id conversation_id verbose) w
     = ((m, {| agents := agents self'; termination_strategy := strategy;
               messages := messages self' |}), w')) /\
  (forall answer,
     Forall (fun a => forall req, post (endpoint a) req = replied 200 (Some (answer a)))
       (agents self) ->
     map (fun r => rp_content (response r)) (gm_agent_responses m)
       = map answer (agents self) /\
     gm_content m = String.concat " " (map answer (agents self))).
Proof.
  pose proof (fun strategy =>
    group_process_query_strategy E post self strategy query user_id
      conversation_id verbose w) as Hstrategy.
  destruct (run (group_process_query E post self query user_id conversation_id verbose) w)
    as [[m self'] w'] eqn:Hrun.
  unfold group_process_query in Hrun. simpl in Hrun.
  destruct (run (if absent conversation_id then uuid4 E
                 else mret (default "" conversation_id)) w) as [cid wa] eqn:Hcid.
  assert (Hposts : posts wa = posts w).
  { destruct (absent conversation_id); injection Hcid as _ <-; reflexivity. }
  match type of Hrun with
  | context [run (call_agents ?a ?b ?c ?d ?e ?f ?g ?h ?i) ?w0] =>
      pose proof (call_agents_spec a b d e f g c h i w0) as Hloop;
      destruct (run (call_agents a b c d e f g h i) w0) as [[tr rs] wc]
  end.
  simpl in Hloop, Hrun. destruct Hloop as (Hp & Hi & Hc).
  injection Hrun as <- <- <-. simpl.
  split; [by rewrite Hp, Hposts|]. split; [done|].
  split; [by rewrite <- (length_map agent_id rs), Hi, length_map|].
  split; [done|]. split; [exact Hstrategy|].
  intros answer Hall. specialize (Hc answer Hall). simpl in Hc.
  by rewrite Hc.
Qed.

Lemma group_chat_calls_every_agent_witness :
  let '((m, self'), w') :=
    run (group_process_query Samples.sample_env Samples.post3 Samples.chat3
           "hi" "user" None false) Samples.world0 in
  gm_content m = "A B C" /\
  length (gm_agent_responses m) = 3%nat /\
  posts w' = [("http://a", "hi"); ("http://b", "hi"); ("http://c", "hi")].
Proof.
  pose proof (group_chat_calls_every_agent Samples.sample_env Samples.post3
                Samples.chat3 "hi" "user" None false Samples.world0) as H.
  destruct (run (group_process_query Samples.sample_env Samples.post3 Samples.chat3
                   "hi" "user" None false) Samples.world0) as [[m self'] w'].
  destruct H as (Hposts & _ & Hlen & _ & _ & Hanswer).
  destruct (Hanswer Samples.answer3) as [_ Hcontent].
  { repeat constructor. }
  split; [exact Hcontent|]. split; [exact Hlen | exact Hposts].
Defined.

End GroupChat.

Section PersistStream.
Import Enhanced.

Lemma deref_insert_ne (h : gmap nat (gmap string pyval)) l l' d :
  l <> l' -> deref (<[l := d]> h) l' = deref h l'.
Proof. intros Hne. unfold deref. by rewrite lookup_insert_ne. Qed.

Lemma forwarded_insert E umid (h : gmap nat (gmap string pyval)) l d base :
  l ∉ refs base ->
  forall n, forwarded E umid (<[l := d]> h) n base = forwarded E umid h n base.
Proof.
  induction base as [|c rest IH]; intros Hl n; [done|].
  assert (Hrest : l ∉ refs rest).
  { intros Hin. apply Hl. unfold refs in *. simpl. apply elem_of_app. by right. }
  assert (Hc : terminal (<[l := d]> h) c = terminal h c /\
               yield_ (<[l := d]> h) c = yield_ h c /\
               forall l', c = dict_chunk l' -> deref (<[l := d]> h) l' = deref h l').
  { destruct c as [l'|v]; [|done].
    assert (l <> l').
    { intros ->. apply Hl. unfold refs. simpl. apply elem_of_cons. by left. }
    unfold terminal, yield_. rewrite deref_insert_ne by done.
    split; [done|]. split; [done|]. intros ? [= <-]. by apply deref_insert_ne. }
  destruct Hc as (Ht & Hy & Hd). simpl. rewrite Ht, Hy, !IH by done.
  destruct c as [l'|v]; [|done]. by rewrite (Hd l' eq_refl).
Qed.

Lemma persist_stream_forwarded E cid uid umid base :
  NoDup (refs base) ->
  forall full au h db w,
    (run (persist_stream E cid uid umid base full au h db) w).1.1.1
      = forwarded E umid h (uuid_count w) base.
Proof.
  induction base as [|c rest IH]; intros Hnd full au h db w; [done|].
  destruct c as [l|v].
  - unfold refs in Hnd. simpl in Hnd. apply NoDup_cons in Hnd as [Hl Hnd].
    cbn [persist_stream forwarded terminal].
    destruct (complete (deref h l)) eqn:Hcomplete.
    + repeat (rewrite run_bind; cbn [run read_clock uuid4]).
      match goal with
      | |- context [run (persist_stream E cid uid umid rest ?f ?a ?h' ?d) ?w'] =>
          specialize (IH Hnd f a h' d w');
          destruct (run (persist_stream E cid uid umid rest f a h' d) w')
            as [[[out hf] dbf] wf]
      end.
      simpl in IH. simpl. rewrite IH, forwarded_insert by done.
      unfold yield_, deref. by rewrite lookup_insert_eq.
    + rewrite !run_bind.
      match goal with
      | |- context [run (persist_stream E cid uid umid rest ?f ?a ?h' ?d) ?w'] =>
          specialize (IH Hnd f a h' d w');
          destruct (run (persist_stream E cid uid umid rest f a h' d) w')
            as [[[out hf] dbf] wf]
      end.
      simpl in IH. simpl. by rewrite IH.
  - cbn [persist_stream forwarded terminal]. rewrite !run_bind.
    specialize (IH Hnd full au h db w).
    destruct (run (persist_stream E cid uid umid rest full au h db) w)
      as [[[out hf] dbf] wf].
    simpl in IH. simpl. by rewrite IH.
Qed.

Lemma terminal_insert (h : gmap nat (gmap string pyval)) l d c rest :
  l ∉ refs (c :: rest) -> terminal (<[l := d]> h) c = terminal h c /\ l ∉ refs rest.
Proof.
  intros Hl. split.
  - destruct c as [l'|v]; [|done]. unfold terminal.
    rewrite deref_insert_ne; [done|].
    intros ->. apply Hl. unfold refs. simpl. apply elem_of_cons. by left.
  - intros Hin. apply Hl. unfold refs in *. simpl. apply elem_of_app. by right.
Qed.

Lemma assistant_ids_insert E (h : gmap nat (gmap string pyval)) l d base :
  l ∉ refs base ->
  forall n, assistant_ids E (<[l := d]> h) n base = assistant_ids E h n base.
Proof.
  induction base as [|c rest IH]; intros Hl n; [done|].
  destruct (terminal_insert h l d c rest Hl) as [Ht Hrest].
  simpl. by rewrite Ht, !IH.
Qed.

Lemma persist_stream_rows E cid uid umid base :
  NoDup (refs base) ->
  forall full au h db w,
    map m_id (messages (run (persist_stream E cid uid umid base full au h db) w).1.2)
      = map m_id (messages db) ++ assistant_ids E h (uuid_count w) base.
Proof.
  induction base as [|c rest IH]; intros Hnd full au h db w.
  - simpl. by rewrite app_nil_r.
  - destruct c as [l|v].
    + unfold refs in Hnd. simpl in Hnd. apply NoDup_cons in Hnd as [Hl Hnd].
      cbn [persist_stream assistant_ids terminal].
      destruct (complete (deref h l)) eqn:Hcomplete.
      * repeat (rewrite run_bind; cbn [run read_clock uuid4]).
        match goal with
        | |- context [run (persist_stream E cid uid umid rest ?f ?a ?h' ?d) ?w'] =>
            specialize (IH Hnd f a h' d w');
            destruct (run (persist_stream E cid uid umid rest f a h' d) w')
              as [[[out hf] dbf] wf]
        end.
        simpl in IH. simpl. rewrite IH, assistant_ids_insert by done.
        rewrite map_app, <- app_assoc. reflexivity.
      * rewrite !run_bind.
        match goal with
        | |- context [run (persist_stream E cid uid umid rest ?f ?a ?h' ?d) ?w'] =>
            specialize (IH Hnd f a h' d w');
            destruct (run (persist_stream E cid uid umid rest f a h' d) w')
              as [[[out hf] dbf] wf]
        end.
        simpl in IH. simpl. by rewrite IH.
    + cbn [persist_stream assistant_ids terminal]. rewrite !run_bind.
      specialize (IH Hnd full au h db w).
      destruct (run (persist_stream E cid uid umid rest full au h db) w)
        as [[[out hf] dbf] wf].
      simpl in IH. simpl. by rewrite IH.
Qed.

Lemma forwarded_chunks E umid h base :
  forall n,
    map y_chunk (forwarded E umid h n base)
      = flat_map (fun c => if terminal h c then [c; c] else [c]) base.
Proof.
  induction base as [|c rest IH]; intros n; [done|].
  simpl. destruct (terminal h c); simpl; by rewrite IH.
Qed.

(** C7, as the code has it: every chunk of the wrapped stream is yielded to
    the caller as it arrives, in order and unchanged; a chunk that signals
    [complete] is then yielded a second time, after the ids of the stored
    user message and of the assistant message stored for it were written
    into it, so that it appears twice in the output. *)
Theorem persist_stream_forwards E cid uid umid base h db w :
  NoDup (refs base) ->
  let '((out, h', db'), w') :=
    run (stream_process_query_with_persistence E cid uid umid base h db) w in
  out = forwarded E umid h (uuid_count w) base /\
  map y_chunk out = flat_map (fun c => if terminal h c then [c; c] else [c]) base /\
  map m_id (messages db') = map m_id (messages db) ++ assistant_ids E h (uuid_count w) base.
Proof.
  intros Hnd. unfold stream_process_query_with_persistence.
  pose proof (persist_stream_forwarded E cid uid umid base Hnd "" (PList []) h db w) as Hout.
  pose proof (persist_stream_rows E cid uid umid base Hnd "" (PList []) h db w) as Hrows.
  destruct (run (persist_stream E cid uid umid base "" (PList []) h db) w)
    as [[[out h'] db'] w'].
  simpl in Hout, Hrows. subst out.
  split; [done|]. split; [apply forwarded_chunks | exact Hrows].
Qed.

Lemma persist_stream_forwards_witness :
  let '((out, h', db'), w') :=
    run (stream_process_query_with_persistence Samples.sample_env "c1" "u1" "m1"
           Samples.stream2 Samples.dicts2 Samples.db0) Samples.world0 in
  map y_chunk out = [dict_chunk 0; dict_chunk 1; dict_chunk 1] /\
  map m_id (messages db') = ["uuid-0"].
Proof.
  pose proof (persist_stream_forwards Samples.sample_env "c1" "u1" "m1"
                Samples.stream2 Samples.dicts2 Samples.db0 Samples.world0) as H.
  destruct (run (stream_process_query_with_persistence Samples.sample_env "c1" "u1" "m1"
                   Samples.stream2 Samples.dicts2 Samples.db0) Samples.world0)
    as [[[out h'] db'] w'].
  destruct H as (_ & Hchunks & Hrows).
  { apply (bool_decide_unpack (NoDup _)). reflexivity. }
  split; [exact Hchunks | exact Hrows].
Defined.

(** C7, as stated, fails: the terminal chunk does not appear exactly once;
    it is yielded as it arrived, without the ids, and then again with
    them. *)
Lemma terminal_chunk_yielded_twice :
  let out :=
    (run (stream_process_query_with_persistence Samples.sample_env "c1" "u1" "m1"
            Samples.stream2 Samples.dicts2 Samples.db0) Samples.world0).1.1.1 in
  map y_chunk out = [dict_chunk 0; dict_chunk 1; dict_chunk 1] /\
  map (fun y => y_now y ≫= (.!! "assistant_message_id")) out
    = [None; None; Some (PStr "uuid-0")] /\
  map (fun y => y_now y ≫= (.!! "user_message_id")) out
    = [None; None; Some (PStr "m1")] /\
  length out <> length Samples.stream2.
Proof.
  split; [vm_compute; reflexivity|]. split; [vm_compute; reflexivity|].
  split; [vm_compute; reflexivity|]. vm_compute. discriminate.
Qed.

End PersistStream.

(** * Further properties of the math operations *)

Section FloatGuards.

(** [x < 0] and [x <= 0] on a float are the IEEE comparisons with zero. *)
Lemma float_lt_zero (x : float) : Py.lt (PyFloat x) (PyInt 0) = (x <? 0)%float.
Proof.
  rewrite FloatAxioms.ltb_spec. unfold Py.lt, cmp, cmp_int_float.
  change (Prim2SF 0) with (S754_zero false).
  destruct (Prim2SF x) as [s|s| |s m e]; simpl; try done.
  - by destruct s.
  - destruct s; destruct (Z.leb_spec 0 e) as [He|He]; cbn; try done.
    + pose proof (Z.pow_pos_nonneg 2 e ltac:(lia) He).
      destruct (Z.neg m * 2 ^ e) eqn:Hv; cbn; try done; lia.
    + pose proof (Z.pow_pos_nonneg 2 e ltac:(lia) He).
      destruct (Z.pos m * 2 ^ e) eqn:Hv; cbn; try done; lia.
Qed.

Lemma float_le_zero (x : float) : Py.le (PyFloat x) (PyInt 0) = (x <=? 0)%float.
Proof.
  rewrite FloatAxioms.leb_spec. unfold Py.le, cmp, cmp_int_float.
  change (Prim2SF 0) with (S754_zero false).
  destruct (Prim2SF x) as [s|s| |s m e]; simpl; try done.
  - by destruct s.
  - destruct s; destruct (Z.leb_spec 0 e) as [He|He]; cbn; try done.
    + pose proof (Z.pow_pos_nonneg 2 e ltac:(lia) He).
      destruct (Z.neg m * 2 ^ e) eqn:Hv; cbn; try done; lia.
    + pose proof (Z.pow_pos_nonneg 2 e ltac:(lia) He).
      destruct (Z.pos m * 2 ^ e) eqn:Hv; cbn; try done; lia.
Qed.

(** [float(x)] fails only by overflow. *)
Lemma float_raises_overflow (x : number) (e : exn) :
  float_ x = Raise e -> e = OverflowError.
Proof.
  destruct x as [z|f]; simpl; [|done].
  destruct (binary_normalize prec emax z 0 false); congruence.
Qed.

(** X1: on a float, SquareRoot raises "Cannot calculate square root of a
    negative number." exactly when [x < 0] and otherwise returns the IEEE
    square root, in the tool server and in the plugin alike; the
    "math domain error" of [math.sqrt] is never reached, and NaN and -0.0
    are not negative, so they come back as they are. *)
Theorem square_root_guard :
  (forall x : float,
     Tools.square_root (PyFloat x) =
       if (x <? 0)%float
       then Raise (InvalidInput "Cannot calculate square root of a negative number.")
       else Ok (PyFloat (PrimFloat.sqrt x))) /\
  (forall x : float, MathPlugin.square_root (PyFloat x) = Tools.square_root (PyFloat x)) /\
  (forall x : number, Tools.square_root x <> Raise (ValueError "math domain error")) /\
  Tools.square_root (PyFloat nan) = Ok (PyFloat nan) /\
  Tools.square_root (PyFloat (-0)%float) = Ok (PyFloat (-0)%float).
Proof.
  assert (Hsqrt : forall x : float,
     Tools.square_root (PyFloat x) =
       if (x <? 0)%float
       then Raise (InvalidInput "Cannot calculate square root of a negative number.")
       else Ok (PyFloat (PrimFloat.sqrt x))).
  { intros x. unfold Tools.square_root, math_sqrt. simpl.
    rewrite float_lt_zero. by destruct (x <? 0)%float. }
  split; [exact Hsqrt|]. split; [reflexivity|]. split; [|split; reflexivity].
  intros x. unfold Tools.square_root.
  destruct (float_ x) as [f|e] eqn:Hf; simpl.
  - pose proof (Hsqrt f) as Hx. unfold Tools.square_root in Hx. simpl in Hx.
    rewrite Hx. by destruct (f <? 0)%float.
  - by rewrite (float_raises_overflow x e Hf).
Qed.

End FloatGuards.

Section LogGuards.
Context `{Builtins}.

(** X2: Log checks its argument before its base: on floats it raises
    "Cannot calculate logarithm of a non-positive number." whenever
    [x <= 0], whatever the base is; called without a base it then is the
    natural logarithm [math.log(x)] and never raises the base error; a NaN
    argument or base is not rejected.  The plugin does the same. *)
Theorem log_validation_order :
  (forall (x : float) (base : option float),
     Tools.log (PyFloat x) (PyFloat <$> base) =
       if (x <=? 0)%float
       then Raise (InvalidInput "Cannot calculate logarithm of a non-positive number.")
       else match base with
            | None => PyFloat <$> math_log (PyFloat x)
            | Some b =>
                if (b <=? 0)%float || Py.eq (PyFloat b) (PyInt 1)
                then Raise (InvalidInput "Logarithm base must be positive and not equal to 1.")
                else if Py.eq (PyFloat b) math_e then PyFloat <$> math_log (PyFloat x)
                else PyFloat <$> math_log_base (PyFloat x) (PyFloat b)
            end) /\
  (forall x : float,
     Tools.log (PyFloat x) (Some (PyFloat 1)) =
       if (x <=? 0)%float
       then Raise (InvalidInput "Cannot calculate logarithm of a non-positive number.")
       else Raise (InvalidInput "Logarithm base must be positive and not equal to 1.")) /\
  Tools.log (PyFloat nan) None = PyFloat <$> math_log (PyFloat nan) /\
  (forall x : float,
     Tools.log (PyFloat x) (Some (PyFloat nan)) =
       if (x <=? 0)%float
       then Raise (InvalidInput "Cannot calculate logarithm of a non-positive number.")
       else PyFloat <$> math_log_base (PyFloat x) (PyFloat nan)) /\
  (forall (x : float) (base : option float),
     MathPlugin.log (PyFloat x) (PyFloat <$> base) = Tools.log (PyFloat x) (PyFloat <$> base)).
Proof.
  assert (Hlog : forall (x : float) (base : option float),
     Tools.log (PyFloat x) (PyFloat <$> base) =
       if (x <=? 0)%float
       then Raise (InvalidInput "Cannot calculate logarithm of a non-positive number.")
       else match base with
            | None => PyFloat <$> math_log (PyFloat x)
            | Some b =>
                if (b <=? 0)%float || Py.eq (PyFloat b) (PyInt 1)
                then Raise (InvalidInput "Logarithm base must be positive and not equal to 1.")
                else if Py.eq (PyFloat b) math_e then PyFloat <$> math_log (PyFloat x)
                else PyFloat <$> math_log_base (PyFloat x) (PyFloat b)
            end).
  { intros x [b|]; unfold Tools.log; simpl; rewrite float_le_zero;
      destruct (x <=? 0)%float; try reflexivity.
    by rewrite float_le_zero. }
  split; [exact Hlog|]. split; [|split; [|split]].
  - intros x. etrans; [exact (Hlog x (Some 1%float))|].
    destruct (x <=? 0)%float; reflexivity.
  - exact (Hlog nan None).
  - intros x. etrans; [exact (Hlog x (Some nan))|].
    destruct (x <=? 0)%float; reflexivity.
  - intros x [b|]; reflexivity.
Qed.

End LogGuards.

Section ModularArithmetic.

Lemma inverse_unique (a m y z : Z) :
  0 <= y < m -> 0 <= z < m ->
  (a * y) mod m = 1 -> (a * z) mod m = 1 -> y = z.
Proof.
  intros Hy Hz Hay Haz.
  assert (Hm : m <> 0) by lia.
  pose proof (Z.div_mod (a * y) m Hm) as Dy. rewrite Hay in Dy.
  pose proof (Z.div_mod (a * z) m Hm) as Dz. rewrite Haz in Dz.
  set (ky := (a * y) / m) in *. set (kz := (a * z) / m) in *.
  assert (E : y * (m * kz + 1) = z * (m * ky + 1)).
  { rewrite <- Dy, <- Dz. ring. }
  assert (Hdiff : y - z = m * (z * ky - y * kz)).
  { clearbody ky kz. lia. }
  clearbody ky kz. clear Dy Dz E Hay Haz.
  set (t := z * ky - y * kz) in *. clearbody t.
  assert (t = 0) by nia. subst t. lia.
Qed.

Lemma modular_inverse_ok (a m x : Z) :
  Tools.modular_inverse a m = Ok x ->
  2 <= m /\ 1 <= x < m /\ ((a mod m) * x) mod m = 1.
Proof.
  intros Hinv. destruct (Z.eq_dec m 0) as [->|Hm]; [done|].
  rewrite modular_inverse_unfold in Hinv by done.
  pose proof (search_range (a mod m) m) as Hscan.
  destruct (Tools.search (a mod m) m (range 1 m)) as [x'|]; [|done].
  injection Hinv as ->. destruct Hscan as (Hx & Hone & _). lia.
Qed.

(** X3: whenever ModularInverse(a, m) returns [x], the modulus is at least
    2, [x] lies in [1, m), Modulo(a * x, m) returns 1 for the argument [a]
    as given (not only for its residue), and [x] is the only number in
    [1, m) with that property. *)
Theorem modular_inverse_checks (a m x : Z) :
  Tools.modular_inverse a m = Ok x ->
  2 <= m /\ 1 <= x < m /\
  Tools.modulo (a * x) m = Ok 1 /\
  (forall y, 1 <= y < m -> Tools.modulo (a * y) m = Ok 1 -> y = x).
Proof.
  intros Hinv. destruct (modular_inverse_ok a m x Hinv) as (Hm & Hx & Hone).
  rewrite Z.mul_mod_idemp_l in Hone by lia.
  assert (Hmodulo : forall y, Tools.modulo (a * y) m = Ok ((a * y) mod m)).
  { intros y. unfold Tools.modulo, int_, int_mod.
    destruct (Z.eqb_spec m 0); [lia|done]. }
  split; [done|]. split; [done|]. split; [by rewrite Hmodulo, Hone|].
  intros y Hy. rewrite Hmodulo. intros [= Hyone].
  apply (inverse_unique a m y x); lia.
Qed.

Lemma modular_inverse_checks_witness :
  2 <= 7 /\ 1 <= 5 < 7 /\
  Tools.modulo (3 * 5) 7 = Ok 1 /\
  (forall y, 1 <= y < 7 -> Tools.modulo (3 * y) 7 = Ok 1 -> y = 5).
Proof. apply (modular_inverse_checks 3 7 5). reflexivity. Defined.

(** X4: ModularInverse undoes itself: when ModularInverse(a, m) returns
    [x], ModularInverse(x, m) returns the residue [a mod m]. *)
Theorem modular_inverse_involution (a m x : Z) :
  Tools.modular_inverse a m = Ok x ->
  Tools.modular_inverse x m = Ok (a mod m).
Proof.
  intros Hinv. destruct (modular_inverse_ok a m x Hinv) as (Hm & Hx & Hone).
  pose proof (Z.mod_pos_bound a m ltac:(lia)) as Hr.
  rewrite modular_inverse_unfold by lia.
  rewrite (Z.mod_small x m) by lia.
  pose proof (search_range x m) as Hscan.
  assert (Hback : (x * (a mod m)) mod m = 1) by (by rewrite Z.mul_comm).
  assert (Hr1 : 1 <= a mod m).
  { destruct (Z.eq_dec (a mod m) 0) as [Hz|]; [|lia].
    rewrite Hz, Z.mul_0_r, Z.mod_0_l in Hback by lia. lia. }
  destruct (Tools.search x m (range 1 m)) as [z|].
  - destruct Hscan as (Hz & Hzone & _). f_equal.
    apply (inverse_unique x m z (a mod m)); lia.
  - exfalso. apply (Hscan (a mod m)); [lia|done].
Qed.

Lemma modular_inverse_involution_witness : Tools.modular_inverse 5 7 = Ok (3 mod 7).
Proof. apply (modular_inverse_involution 3 7 5). reflexivity. Defined.

(** X5: Modulo and ModularInverse see their first argument only through its
    residue: adding a multiple of the divisor changes neither the result
    nor the error, and Modulo applied to its own result returns it. *)
Theorem modulo_periodic :
  (forall a b k : Z, Tools.modulo (a + k * b) b = Tools.modulo a b) /\
  (forall a m k : Z, Tools.modular_inverse (a + k * m) m = Tools.modular_inverse a m) /\
  (forall a b r : Z, Tools.modulo a b = Ok r -> Tools.modulo r b = Ok r).
Proof.
  split; [|split].
  - intros a b k. unfold Tools.modulo, int_, int_mod.
    destruct (Z.eqb_spec b 0) as [|Hb]; [done|]. by rewrite Z.mod_add.
  - intros a m k. destruct (Z.eq_dec m 0) as [->|Hm].
    + by rewrite Z.mul_0_r, Z.add_0_r.
    + rewrite !modular_inverse_unfold by done. by rewrite Z.mod_add.
  - intros a b r. unfold Tools.modulo, int_, int_mod.
    destruct (Z.eqb_spec b 0) as [|Hb]; [done|].
    intros [= <-]. by rewrite Z.mod_mod.
Qed.

End ModularArithmetic.

Section NumericTower.


End NumericTower.

(** * Further properties of the runtime *)

Section CallAgent.
Import Runtime.

(** X7: [call_agent] never raises and always marks its agent as the last
    one called.  It sends one request, addressed to the agent and carrying
    the query, and returns: on status 200 the [content] of the reply, or
    "No response from agent" when the reply has none; on another status
    "Error calling agent: <status>"; on an exception "Exception calling
    agent: <text>".  Only a 200 reply is kept as the last agent response;
    with an event queue attached, [agent_call] is put before the request
    and [agent_response] after a 200 reply only. *)
Theorem call_agent_outcome E post self query sender_id conversation_id w :
  let '(text, w') := run (call_agent E post self query sender_id conversation_id) w in
  last_called_agent w' = Some (id self) /\
  posts w' = posts w ++ [(endpoint self, query)] /\
  exists req,
    rq_content req = query /\ rq_recipientId req = id self /\
    rq_senderId req = sender_id /\
    match post (endpoint self) req with
    | replied status body =>
        if status =? 200 then
          text = default "No response from agent" body /\
          last_agent_response w' = Some text /\
          event_queue w' =
            event_queue w ++
              (if has_event_queue self
               then [agent_call (id self) query; agent_response (id self) text]
               else [])
        else
          text = "Error calling agent: " +:+ pretty status /\
          last_agent_response w' = None /\
          event_queue w' =
            event_queue w ++
              (if has_event_queue self then [agent_call (id self) query] else [])
    | failed err =>
        text = "Exception calling agent: " +:+ err /\
        last_agent_response w' = None /\
        event_queue w' =
          event_queue w ++
            (if has_event_queue self then [agent_call (id self) query] else [])
    end.
Proof.
  unfold call_agent, when. simpl.
  destruct (has_event_queue self), conversation_id; simpl;
    (match goal with
     | |- context [post ?e ?r] =>
         destruct (post e r) as [st b|err] eqn:Hpost;
         [destruct (st =? 200) eqn:Hst|]; simpl;
         (split; [done|]; split; [done|]; exists r; rewrite Hpost, ?Hst;
          rewrite ?app_nil_r, <- ?app_assoc; repeat split)
     end).
Qed.

End CallAgent.

Section GroupChatLog.
Import Runtime.

Lemma call_agents_shape E post query user_id cid verbose agents :
  forall trace responses w,
  let '((tr, rs), w') :=
    run (call_agents E post agents query user_id cid verbose trace responses) w in
  tr = trace ++
         (if verbose then map (fun a => "Calling " +:+ name a +:+ "...") agents else []) /\
  exists new,
    rs = responses ++ new /\
    Forall (fun r =>
              rp_conversationId (response r) = cid /\
              rp_senderId (response r) = agent_id r /\
              rp_recipientId (response r) = user_id /\
              rp_type (response r) = "Text") new.
Proof.
  induction agents as [|a agents IH]; intros trace responses w.
  - simpl. split; [by destruct verbose; rewrite app_nil_r|].
    exists []. by rewrite app_nil_r.
  - cbn [call_agents]. rewrite run_bind.
    destruct (run (call_agent E post a query user_id (Some cid)) w) as [c wa].
    simpl.
    match goal with
    | |- context [run (call_agents E post agents query user_id cid verbose ?t ?r) ?w0] =>
        specialize (IH t r w0);
        destruct (run (call_agents E post agents query user_id cid verbose t r) w0)
          as [[tr rs] w']
    end.
    simpl in IH. destruct IH as (Htr & new & Hrs & Hnew). split.
    + rewrite Htr. destruct verbose; simpl; [|done]. by rewrite <- app_assoc.
    + eexists (_ :: new). rewrite Hrs, <- app_assoc. split; [reflexivity|].
      constructor; [done | exact Hnew].
Qed.

(** X8: a group-chat query appends exactly two entries to the chat's own
    log, the user entry and then the assistant entry, which carries the
    content, per-agent responses and trace of the returned message; the
    trace is "Calling <name>..." for every agent in order when [verbose]
    and absent otherwise; every per-agent response carries the
    conversation id of the message, the agent as sender and the user as
    recipient; with no agent configured the content is empty and nothing
    is sent. *)
Theorem group_chat_log E post self query user_id conversation_id verbose w :
  let '((m, self'), w') :=
    run (group_process_query E post self query user_id conversation_id verbose) w in
  (exists t0 t2,
     messages self' =
       messages self ++
         [user_entry query t0;
          assistant_entry (gm_content m) t2 (gm_agent_responses m) (gm_execution_trace m)]) /\
  agents self' = agents self /\
  gm_execution_trace m =
    (if verbose
     then Some (map (fun a => "Calling " +:+ name a +:+ "...") (agents self))
     else None) /\
  gm_senderId m = "agent-runtime" /\ gm_recipientId m = user_id /\
  gm_conversationId m =
    (if absent conversation_id then uuid_src E (uuid_count w)
     else default "" conversation_id) /\
  Forall (fun r =>
            rp_conversationId (response r) = gm_conversationId m /\
            rp_senderId (response r) = agent_id r /\
            rp_recipientId (response r) = user_id /\
            rp_type (response r) = "Text") (gm_agent_responses m) /\
  (agents self = [] -> gm_content m = "" /\ gm_agent_responses m = [] /\ posts w' = posts w).
Proof.
  destruct (run (group_process_query E post self query user_id conversation_id verbose) w)
    as [[m self'] w'] eqn:Hrun.
  unfold group_process_query in Hrun. simpl in Hrun.
  destruct (run (if absent conversation_id then uuid4 E
                 else mret (default "" conversation_id)) w) as [cid wa] eqn:Hcid.
  assert (Hid : cid = if absent conversation_id then uuid_src E (uuid_count w)
                      else default "" conversation_id).
  { destruct (absent conversation_id); by injection Hcid as <- _. }
  assert (Hwa : posts wa = posts w).
  { destruct (absent conversation_id); injection Hcid as _ <-; reflexivity. }
  match type of Hrun with
  | context [run (call_agents ?a ?b ?c ?d ?e ?f ?g ?h ?i) ?w0] =>
      pose proof (call_agents_shape a b d e f g c h i w0) as Hshape;
      pose proof (call_agents_spec a b d e f g c h i w0) as Hspec;
      destruct (run (call_agents a b c d e f g h i) w0) as [[tr rs] wc]
  end.
  simpl in Hshape, Hspec, Hrun. destruct Hshape as (Htr & new & Hrs & Hnew).
  destruct Hspec as (Hposts & Hids & _).
  simpl in Hrs, Htr. subst rs tr. injection Hrun as <- <- <-. simpl in *.
  split; [eexists _, _; by rewrite <- app_assoc|]. split; [done|].
  split; [by destruct verbose|]. split; [done|]. split; [done|].
  split; [done|]. split; [done|].
  intros Hnone. rewrite Hnone in *. simpl in *.
  apply map_eq_nil in Hids. subst new.
  rewrite app_nil_r in Hposts. by rewrite Hposts.
Qed.

End GroupChatLog.

Section ProcessQueryHistory.
Import Runtime.

(** X9: when the completion succeeds, [process_query] hands it the fixed
    system prompt followed by every earlier turn of the conversation and
    then the new query, returns its text under the conversation's id with
    no error field, and leaves the conversation two turns longer: the user
    turn, then the assistant turn with the returned content; every other
    conversation is untouched. *)
Theorem process_query_appends_two E chat self query conversation_id verbose
    max_agents w result w2 :
  let '(w1, cid, history) := at_completion E self query conversation_id w in
  run (chat (system_prompt :: map replay history)) w1 = (inr result, w2) ->
  let '((m, self'), w') :=
    run (process_query E chat self query conversation_id verbose max_agents) w in
  map replay history =
    map replay (get_conversation_history self cid) ++ [user_message query] /\
  msg_content m = response_content_of result /\
  msg_error m = None /\
  msg_conversationId m = cid /\
  (exists t t' trace used,
     get_conversation_history self' cid =
       get_conversation_history self cid
         ++ [user_turn query t; assistant_turn (msg_content m) t' trace used] /\
     msg_agents_used m = Some used) /\
  (forall other, other <> cid ->
     get_conversation_history self' other = get_conversation_history self other).
Proof.
  pose proof (process_query_run E chat self query conversation_id verbose max_agents w) as Hrun.
  unfold at_completion in *.
  destruct (run (read_clock E) w) as [t0 wa].
  destruct (run (if absent conversation_id then uuid4 E
                 else mret (default "" conversation_id)) wa) as [cid wb].
  destruct (run (read_clock E) wb) as [t wc].
  intros Hchat. cbv beta iota zeta in Hrun. rewrite Hchat in Hrun.
  rewrite Hrun. clear Hrun. simpl.
  split; [by rewrite map_app|]. split; [done|]. split; [done|]. split; [done|].
  unfold get_conversation_history, set_conversation. simpl.
  rewrite lookup_insert_eq. simpl. split.
  - eexists _, _, _, _. rewrite <- app_assoc. split; reflexivity.
  - intros other Hne. by rewrite !lookup_insert_ne.
Qed.

Lemma process_query_appends_two_witness :
  let '((m, self'), w') :=
    run (process_query Samples.sample_env Samples.chat_calls_math Samples.runtime0
           "2+2" (Some "c1") false None) Samples.world0 in
  msg_content m = "4" /\ length (get_conversation_history self' "c1") = 2%nat.
Proof.
  pose proof (process_query_appends_two Samples.sample_env Samples.chat_calls_math
                Samples.runtime0 "2+2" (Some "c1") false None Samples.world0
                _ _ eq_refl) as H.
  vm_compute in H. vm_compute.
  destruct H as (_ & H2 & _ & _ & _ & _). auto.
Defined.

(** X10: [process_query] treats an empty conversation id like a missing
    one and draws a fresh uuid; whether the completion succeeds or raises,
    the returned message names the conversation id in use and a
    conversation starting with the earlier turns and holding the new user
    turn is stored under it. *)
Theorem process_query_conversation_id E chat self query conversation_id verbose
    max_agents w :
  let '((m, self'), w') :=
    run (process_query E chat self query conversation_id verbose max_agents) w in
  msg_conversationId m =
    (if absent conversation_id then uuid_src E (uuid_count w)
     else default "" conversation_id) /\
  absent (Some "") = true /\
  exists t rest,
    get_conversation_history self' (msg_conversationId m) =
      get_conversation_history self (msg_conversationId m)
        ++ user_turn query t :: rest.
Proof.
  pose proof (process_query_run E chat self query conversation_id verbose max_agents w) as Hrun.
  unfold at_completion in *.
  destruct (run (read_clock E) w) as [t0 wa] eqn:H0.
  destruct (run (if absent conversation_id then uuid4 E
                 else mret (default "" conversation_id)) wa) as [cid wb] eqn:Hcid.
  destruct (run (read_clock E) wb) as [t wc].
  assert (Hid : cid = if absent conversation_id then uuid_src E (uuid_count w)
                      else default "" conversation_id).
  { injection H0 as _ <-. destruct (absent conversation_id); by injection Hcid as <- _. }
  cbv beta iota zeta in Hrun. rewrite Hrun. clear Hrun.
  match goal with
  | |- context [run (chat ?h) ?w0] => destruct (run (chat h) w0) as [[e|result] w2]
  end; simpl; (split; [done|]; split; [done|]);
    unfold get_conversation_history, set_conversation; simpl;
    rewrite lookup_insert_eq; simpl.
  - by eexists _, [].
  - eexists _, [_]. by rewrite <- app_assoc.
Qed.

Lemma plugin_name_no_hyphen (s : string) :
  before_first "-"%char (plugin_name s) = plugin_name s.
Proof.
  unfold plugin_name. induction s as [|c s IH]; simpl; [done|].
  destruct (Ascii.eqb_spec c "-"%char) as [->|Hc]; simpl; [by rewrite IH|].
  destruct (Ascii.eqb_spec c "-"%char); [done|]. by rewrite IH.
Qed.

Lemma replace_plugin_name (s : string) :
  replace "_"%char "-"%char (plugin_name s) = replace "_"%char "-"%char s.
Proof.
  unfold plugin_name. induction s as [|c s IH]; simpl; [done|]. rewrite IH. f_equal.
  destruct (Ascii.eqb_spec c "-"%char) as [->|Hc]; [done|].
  by destruct (Ascii.eqb c "_"%char).
Qed.

Lemma plugin_name_replace (s : string) :
  plugin_name (replace "_"%char "-"%char s) = plugin_name s.
Proof.
  unfold plugin_name. induction s as [|c s IH]; simpl; [done|]. rewrite IH. f_equal.
  destruct (Ascii.eqb_spec c "_"%char) as [->|Hc]; [done|].
  by destruct (Ascii.eqb c "-"%char).
Qed.

(** X11: a plugin name never contains a hyphen, so the function name
    "<plugin name>-<function>" is split at the separator; the agent id
    read back from it is the registered id with every underscore turned
    into a hyphen, which is the registered id exactly when that id has no
    underscore; two ids that differ only in hyphens against underscores
    get the same plugin name. *)
Theorem agent_id_round_trip (agent_id f : string) :
  before_first "-"%char (plugin_name agent_id) = plugin_name agent_id /\
  agent_id_of (plugin_name agent_id +:+ String "-"%char f)
    = replace "_"%char "-"%char agent_id /\
  (agent_id_of (plugin_name agent_id +:+ String "-"%char f) = agent_id
   <-> replace "_"%char "-"%char agent_id = agent_id) /\
  plugin_name (replace "_"%char "-"%char agent_id) = plugin_name agent_id.
Proof.
  assert (Hback : agent_id_of (plugin_name agent_id +:+ String "-"%char f)
                  = replace "_"%char "-"%char agent_id).
  { unfold agent_id_of. rewrite before_first_app by apply plugin_name_no_hyphen.
    apply replace_plugin_name. }
  split; [apply plugin_name_no_hyphen|]. split; [exact Hback|].
  split; [by rewrite Hback|]. apply plugin_name_replace.
Qed.

End ProcessQueryHistory.

(** * Further properties of sessions and of the persisting runtime *)

Section DeleteSession.
Import Sessions.

(** X12: [delete_session] reports whether a session with the token
    existed; afterwards the token is unknown and every other session is as
    before; deleting an unknown token changes nothing, so a second delete
    reports false. *)
Theorem delete_session_once (db : gmap string Session) (token : string) :
  let '(deleted, db') := delete_session db token in
  (deleted = true <-> is_Some (db !! token)) /\
  db' = delete token db /\
  db' !! token = None /\
  (forall other, other <> token -> db' !! other = db !! other) /\
  (deleted = false -> db' = db) /\
  delete_session db' token = (false, db').
Proof.
  unfold delete_session. destruct (db !! token) as [s|] eqn:Hlook.
  - split; [split; [by eexists | done]|]. split; [done|].
    split; [apply lookup_delete_eq|].
    split; [intros other Hne; by apply lookup_delete_ne|].
    split; [done|]. by rewrite lookup_delete_eq.
  - split; [split; [done | by intros [? ?]]|].
    split; [symmetry; by apply delete_id|]. split; [done|].
    split; [done|]. split; [done|]. by rewrite Hlook.
Qed.

End DeleteSession.

Section StreamStorage.
Import Enhanced Persistence.

Lemma string_app_cons (x : ascii) (a b : string) :
  String x a +:+ b = String x (a +:+ b).
Proof. reflexivity. Qed.

Lemma string_app_assoc (a b c : string) : (a +:+ b) +:+ c = a +:+ (b +:+ c).
Proof. induction a as [|x a IH]; [done|]. by rewrite !string_app_cons, IH. Qed.

Lemma string_app_nil_r (a : string) : a +:+ "" = a.
Proof. induction a as [|x a IH]; [done|]. by rewrite string_app_cons, IH. Qed.

Lemma concat_empty_cons (s : string) (l : list string) :
  String.concat "" (s :: l) = s +:+ String.concat "" l.
Proof. destruct l; simpl; [by rewrite string_app_nil_r | done]. Qed.

Lemma concat_empty_snoc (l : list string) (s : string) :
  String.concat "" (l ++ [s]) = String.concat "" l +:+ s.
Proof.
  induction l as [|x l IH]; [reflexivity|].
  rewrite <- app_comm_cons, !concat_empty_cons, IH. by rewrite string_app_assoc.
Qed.

Lemma contents_snoc E (h : gmap nat (gmap string pyval)) pre c :
  contents E h (pre ++ [c]) = contents E h pre +:+ content_of E h c.
Proof. unfold contents. rewrite map_app. apply concat_empty_snoc. Qed.

(** The loop over chunks that do not signal [complete]: they are yielded
    as they are, nothing is written, and the text and the agents seen are
    carried on. *)
Lemma persist_stream_prefix E cid uid umid (h : gmap nat (gmap string pyval)) pre :
  Forall (fun c => terminal h c = false) pre ->
  forall rest full au db w,
    run (persist_stream E cid uid umid (pre ++ rest) full au h db) w =
      let '((out, h', db'), w') :=
        run (persist_stream E cid uid umid rest
               (full +:+ contents E h pre)
               (default au (last (omap (agents_used_of h) pre))) h db) w in
      ((map (yield_ h) pre ++ out, h', db'), w').
Proof.
  induction pre as [|c pre IH]; intros Hpre rest full au db w.
  - simpl. unfold contents. simpl. rewrite string_app_nil_r.
    by destruct (run (persist_stream E cid uid umid rest full au h db) w) as [[[? ?] ?] ?].
  - inversion Hpre as [|? ? Hc Hrest]; subst.
    assert (Hcontents : forall f, f +:+ contents E h (c :: pre)
                        = (f +:+ content_of E h c) +:+ contents E h pre).
    { intros f. unfold contents. simpl map.
      by rewrite concat_empty_cons, string_app_assoc. }
    rewrite Hcontents. destruct c as [l|v].
    + simpl in Hc. cbn [app persist_stream]. rewrite Hc, run_bind.
      match goal with
      | |- context [run (persist_stream E cid uid umid (pre ++ rest) ?f ?a h db) w] =>
          rewrite (IH Hrest rest f a db w)
      end.
      assert (Hau : default au (last (omap (agents_used_of h) (dict_chunk l :: pre)))
                    = default (default au (deref h l !! "agents_used"))
                        (last (omap (agents_used_of h) pre))).
      { simpl. unfold omap.
        destruct (deref h l !! "agents_used") as [v|]; [|done]. simpl.
        destruct (list_omap _ _ (agents_used_of h) pre) as [|x xs]; [done|].
        rewrite last_cons_cons. destruct (last (x :: xs)) eqn:Hlast; [done|].
        by apply last_None in Hlast. }
      rewrite Hau. unfold content_of.
      destruct (deref h l !! "content") as [v|]; rewrite ?string_app_nil_r;
        match goal with
        | |- context [run (persist_stream E cid uid umid rest ?f ?a h db) w] =>
            destruct (run (persist_stream E cid uid umid rest f a h db) w)
              as [[[out h'] db'] w']
        end; reflexivity.
    + cbn [app persist_stream]. rewrite run_bind, (IH Hrest rest full au db w).
      unfold content_of. rewrite string_app_nil_r.
      change (omap (agents_used_of h) (other_chunk v :: pre))
        with (omap (agents_used_of h) pre).
      match goal with
      | |- context [run (persist_stream E cid uid umid rest ?f ?a h db) w] =>
          destruct (run (persist_stream E cid uid umid rest f a h db) w)
            as [[[out h'] db'] w']
      end; reflexivity.
Qed.

(** X13: a stream that never signals [complete] (an error result, say) is
    passed on chunk by chunk as it is, and nothing is stored for it: no
    assistant message, no touched conversation, no id drawn, no dict
    changed. *)
Theorem persist_stream_incomplete E cid uid umid base
    (h : gmap nat (gmap string pyval)) db w :
  Forall (fun c => terminal h c = false) base ->
  run (stream_process_query_with_persistence E cid uid umid base h db) w
    = ((map (yield_ h) base, h, db), w).
Proof.
  intros Hbase. unfold stream_process_query_with_persistence.
  pose proof (persist_stream_prefix E cid uid umid h base Hbase [] "" (PList []) db w) as Hrun.
  rewrite app_nil_r in Hrun. rewrite Hrun. simpl. by rewrite app_nil_r.
Qed.

Lemma persist_stream_incomplete_witness :
  run (stream_process_query_with_persistence Samples.sample_env "c1" "u1" "m1"
         [dict_chunk 0] Samples.dicts2 Samples.db0) Samples.world0
    = ((map (yield_ Samples.dicts2) [dict_chunk 0], Samples.dicts2, Samples.db0),
       Samples.world0).
Proof.
  apply (persist_stream_incomplete Samples.sample_env "c1" "u1" "m1"
           [dict_chunk 0] Samples.dicts2 Samples.db0 Samples.world0).
  repeat constructor.
Defined.

(** X14: when the first chunk that signals [complete] arrives, one
    assistant message is stored for the conversation: its content is the
    text of every [content] value the stream carried up to and including
    that chunk, in order, its [agents_used] the last such value seen (an
    empty list when there was none), its recipient the user; the
    conversation is touched at that moment. *)
Theorem persist_stream_stores_text E cid uid umid pre l
    (h : gmap nat (gmap string pyval)) db w :
  Forall (fun c => terminal h c = false) pre ->
  terminal h (dict_chunk l) = true ->
  let '((out, h', db'), w') :=
    run (stream_process_query_with_persistence E cid uid umid
           (pre ++ [dict_chunk l]) h db) w in
  messages db' =
    messages db ++
      [{| m_id := uuid_src E (uuid_count w);
          m_conversation_id := cid;
          m_role := "assistant";
          m_content := contents E h (pre ++ [dict_chunk l]);
          m_sender_id := Some "runtime";
          m_recipient_id := Some uid;
          m_message_type := Some "text";
          m_agents_used :=
            Some (default (PList [])
                    (last (omap (agents_used_of h) (pre ++ [dict_chunk l])))) |}] /\
  updated_at db' = <[cid := utcnow (time_src E (clock_count w))]> (updated_at db) /\
  length out = S (S (length pre)).
Proof.
  intros Hpre Hl. unfold stream_process_query_with_persistence.
  rewrite (persist_stream_prefix E cid uid umid h pre Hpre [dict_chunk l] "" (PList []) db w).
  simpl in Hl. cbn [persist_stream]. rewrite Hl. simpl.
  split; [|split; [done|]].
  - f_equal. f_equal. f_equal.
    + rewrite contents_snoc. unfold content_of.
      destruct (deref h l !! "content") as [v|]; [done|].
      by rewrite string_app_nil_r.
    + rewrite omap_app. simpl. f_equal.
      destruct (deref h l !! "agents_used") as [v|]; simpl.
      * by rewrite last_snoc.
      * by rewrite app_nil_r.
  - rewrite length_app, length_map. simpl. lia.
Qed.

Lemma persist_stream_stores_text_witness :
  let '((out, h', db'), w') :=
    run (stream_process_query_with_persistence Samples.sample_env "c1" "u1" "m1"
           ([dict_chunk 0] ++ [dict_chunk 1]) Samples.dicts2 Samples.db0) Samples.world0 in
  map m_content (messages db') = ["Hi"] /\ length out = 3%nat.
Proof.
  pose proof (persist_stream_stores_text Samples.sample_env "c1" "u1" "m1"
                [dict_chunk 0] 1%nat Samples.dicts2 Samples.db0 Samples.world0) as H.
  destruct (run (stream_process_query_with_persistence Samples.sample_env "c1" "u1" "m1"
                   ([dict_chunk 0] ++ [dict_chunk 1]) Samples.dicts2 Samples.db0)
              Samples.world0) as [[[out h'] db'] w'].
  destruct H as (Hrows & _ & Hlen); [repeat constructor | reflexivity |].
  split; [by rewrite Hrows | exact Hlen].
Defined.

End StreamStorage.

(** * Loading the configuration *)

Section LoadConfig.
Import Runtime Config.

Lemma init_id c a : init c = Some a -> cfg_id c = Some (id a).
Proof.
  unfold init. destruct (cfg_id c), (cfg_name c), (cfg_endpoint c); simpl; try done.
  by intros [= <-].
Qed.

Lemma dict_get_set_eq {V} (d : dict V) k v : dict_get (dict_set d k v) k = Some v.
Proof.
  induction d as [|[k' v'] d IH]; simpl.
  - by destruct (decide (k = k)).
  - destruct (decide (k' = k)) as [->|Hne]; simpl.
    + by destruct (decide (k = k)).
    + by destruct (decide (k' = k)).
Qed.

Lemma dict_get_set_ne {V} (d : dict V) k k' v :
  k <> k' -> dict_get (dict_set d k v) k' = dict_get d k'.
Proof.
  intros Hne. induction d as [|[k0 v0] d IH]; simpl.
  - by destruct (decide (k = k')).
  - destruct (decide (k0 = k)) as [->|Hk]; simpl.
    + by destruct (decide (k = k')).
    + destruct (decide (k0 = k')); [done | exact IH].
Qed.

Lemma dict_set_fresh {V} (d : dict V) k v :
  dict_get d k = None -> dict_set d k v = d ++ [(k, v)].
Proof.
  induction d as [|[k0 v0] d IH]; simpl; [done|].
  destruct (decide (k0 = k)); [done|]. intros Hd. by rewrite IH.
Qed.

Lemma dict_get_app_fresh {V} (d : dict V) k k' v :
  k <> k' -> dict_get (d ++ [(k, v)]) k' = dict_get d k'.
Proof.
  intros Hne. induction d as [|[k0 v0] d IH]; simpl.
  - by destruct (decide (k = k')).
  - by destruct (decide (k0 = k')).
Qed.

Lemma load_agents_app agents good rest :
  Forall (fun c => is_Some (init c)) good ->
  load_agents agents (good ++ rest) = load_agents (load_agents agents good) rest.
Proof.
  intros Hgood. revert agents.
  induction Hgood as [|c good [a Ha] _ IH]; intros agents; [done|].
  simpl. rewrite Ha. apply IH.
Qed.

Lemma load_agents_lookup agents good agent_id :
  Forall (fun c => is_Some (init c)) good ->
  dict_get (load_agents agents good) agent_id =
    match last (filter (fun a => id a = agent_id) (omap init good)) with
    | Some a => Some a
    | None => dict_get agents agent_id
    end.
Proof.
  intros Hgood. revert agents.
  induction Hgood as [|c good [a Ha] _ IH]; intros agents; [done|].
  unfold omap in *. simpl. rewrite Ha, IH. simpl. rewrite filter_cons.
  destruct (decide (id a = agent_id)) as [<-|Hne].
  - rewrite last_cons.
    destruct (last (filter _ (list_omap _ _ init good))); [done|].
    by rewrite dict_get_set_eq.
  - destruct (last (filter _ (list_omap _ _ init good))); [done|].
    by rewrite dict_get_set_ne.
Qed.

Lemma load_agents_stops agents bad rest :
  init bad = None -> load_agents agents (bad :: rest) = agents.
Proof. intros Hbad. simpl. by rewrite Hbad. Qed.

Lemma load_agents_keys agents l :
  (forall i a, dict_get agents i = Some a -> id a = i) ->
  forall i a, dict_get (load_agents agents l) i = Some a -> id a = i.
Proof.
  revert agents. induction l as [|c l IH]; intros agents Hkeys; [done|].
  simpl. destruct (init c) as [b|]; [|done].
  apply IH. intros i a. destruct (decide (id b = i)) as [<-|Hne].
  - rewrite dict_get_set_eq. by intros [= <-].
  - rewrite dict_get_set_ne by done. apply Hkeys.
Qed.

Lemma load_agents_order agents good :
  Forall (fun c => is_Some (init c)) good ->
  NoDup (map id (omap init good)) ->
  Forall (fun a => dict_get agents (id a) = None) (omap init good) ->
  load_agents agents good = agents ++ map (fun a => (id a, a)) (omap init good).
Proof.
  intros Hgood. revert agents.
  induction Hgood as [|c good [a Ha] _ IH]; intros agents Hnodup Hfresh.
  { simpl. by rewrite app_nil_r. }
  unfold omap in *. simpl in *. rewrite Ha in *. simpl in *.
  apply NoDup_cons in Hnodup as [Hnotin Hnodup].
  apply Forall_cons in Hfresh as [Ha0 Hfresh].
  rewrite (dict_set_fresh _ _ _ Ha0), IH, <- app_assoc; [done | done |].
  apply Forall_forall. intros b Hb.
  rewrite dict_get_app_fresh.
  - by apply (proj1 (Forall_forall _ _) Hfresh).
  - intros Heq. apply Hnotin. rewrite Heq. apply list_elem_of_fmap. by exists b.
Qed.

(** X15: loading stops at the first entry that lacks [id], [name] or
    [endpoint]: the entries before it are registered and the entries after
    it are not, whatever they are.  Of the entries registered, the last
    one with a given id is the one found under that id, and an id no
    entry has keeps the agent it had.  The streaming setting was taken
    from [settings] before the entries were read, so it is kept. *)
Theorem load_config_stops_at_malformed self settings good bad rest :
  Forall (fun c => is_Some (init c)) good ->
  init bad = None ->
  load_config self (Some {| settings := settings; agents_key := Some (good ++ bad :: rest) |})
    = load_config self (Some {| settings := settings; agents_key := Some good |}) /\
  (forall agent_id,
     get_agent_by_id
       (load_config self
          (Some {| settings := settings; agents_key := Some (good ++ bad :: rest) |}))
       agent_id
     = match last (filter (fun a => id a = agent_id) (omap init good)) with
       | Some a => Some a
       | None => get_agent_by_id self agent_id
       end) /\
  enable_streaming
    (load_config self
       (Some {| settings := settings; agents_key := Some (good ++ bad :: rest) |}))
    = match settings with
      | Some s => default false s
      | None => enable_streaming self
      end.
Proof.
  intros Hgood Hbad. unfold load_config, get_agent_by_id. simpl.
  rewrite (load_agents_app _ _ _ Hgood), (load_agents_stops _ _ _ Hbad).
  split; [done|]. split; [|done].
  intros agent_id. by apply load_agents_lookup.
Qed.

Lemma load_config_stops_at_malformed_witness :
  get_agent_by_id
    (load_config Samples.runtime0
       (Some (MoreSamples.config_file
                (MoreSamples.two_agents ++ MoreSamples.no_endpoint :: MoreSamples.two_agents))))
    "broken" = None.
Proof.
  destruct (load_config_stops_at_malformed Samples.runtime0 (Some None)
              MoreSamples.two_agents MoreSamples.no_endpoint MoreSamples.two_agents)
    as (_ & Hfind & _).
  - repeat constructor; by eexists.
  - reflexivity.
  - unfold MoreSamples.config_file. by rewrite Hfind.
Defined.

(** X16: [load_config] stores every agent under the agent's own id: when
    that holds of the agents registered before, it holds after loading any
    file, readable or not, well formed or not, so that an agent found by
    id has that id. *)
Theorem load_config_keys self file :
  (forall i a, get_agent_by_id self i = Some a -> id a = i) ->
  forall i a, get_agent_by_id (load_config self file) i = Some a -> id a = i.
Proof.
  intros Hkeys i a. destruct file as [config|]; [|apply Hkeys].
  unfold get_agent_by_id, load_config. simpl. by apply load_agents_keys.
Qed.

Lemma load_config_keys_witness :
  from_option (fun a => id a = "math-agent") False
    (get_agent_by_id
       (load_config Samples.runtime0 (Some (MoreSamples.config_file MoreSamples.two_agents)))
       "math-agent").
Proof.
  destruct (get_agent_by_id _ "math-agent") as [a|] eqn:Hfound; simpl.
  - apply (load_config_keys Samples.runtime0
             (Some (MoreSamples.config_file MoreSamples.two_agents))); [|exact Hfound].
    intros i b. unfold get_agent_by_id. simpl. done.
  - vm_compute in Hfound. discriminate Hfound.
Defined.

End LoadConfig.

(** * The group-chat endpoint *)

Section GroupChatEndpoint.
Import Runtime Config Api.

Lemma group_process_query_posts E post self query user_id conversation_id verbose w :
  let '((m, self'), w') :=
    run (group_process_query E post self query user_id conversation_id verbose) w in
  posts w' = posts w ++ map (fun a => (endpoint a, query)) (agents self) /\
  map agent_id (gm_agent_responses m) = map id (agents self).
Proof.
  destruct (run (group_process_query E post self query user_id conversation_id verbose) w)
    as [[m self'] w'] eqn:Hrun.
  unfold group_process_query in Hrun. simpl in Hrun.
  destruct (run (if absent conversation_id then uuid4 E
                 else mret (default "" conversation_id)) w) as [cid wa] eqn:Hcid.
  assert (Hposts : posts wa = posts w).
  { destruct (absent conversation_id); injection Hcid as _ <-; reflexivity. }
  match type of Hrun with
  | context [run (call_agents ?a ?b ?c ?d ?e ?f ?g ?h ?i) ?w0] =>
      pose proof (call_agents_spec a b d e f g c h i w0) as Hloop;
      destruct (run (call_agents a b c d e f g h i) w0) as [[tr rs] wc]
  end.
  simpl in Hloop, Hrun. destruct Hloop as (Hp & Hi & _).
  injection Hrun as <- <- <-. simpl.
  split; [by rewrite Hp, Hposts | done].
Qed.

Lemma named_agents_ids runtime ids :
  (forall i a, get_agent_by_id runtime i = Some a -> id a = i) ->
  map id (omap (get_agent_by_id runtime) ids)
    = filter (fun i => is_Some (get_agent_by_id runtime i)) ids.
Proof.
  intros Hkeys. induction ids as [|i ids IH]; [done|].
  rewrite filter_cons. unfold omap in *. simpl.
  destruct (get_agent_by_id runtime i) as [a|] eqn:Hi.
  - destruct (decide (is_Some (Some a))) as [_|Hno]; [|by destruct Hno].
    simpl. by rewrite IH, (Hkeys i a Hi).
  - destruct (decide (is_Some (@None AgentPlugin))) as [[? Hyes]|_]; [done|].
    exact IH.
Qed.

Lemma named_agents_posts runtime (query : string) ids :
  map (fun a => (endpoint a, query)) (omap (get_agent_by_id runtime) ids)
    = omap (fun i => a ← get_agent_by_id runtime i; Some (endpoint a, query)) ids.
Proof.
  induction ids as [|i ids IH]; [done|].
  unfold omap in *. simpl. destruct (get_agent_by_id runtime i); simpl; by rewrite ?IH.
Qed.

(** X17: a group chat that is not streamed consults, when agent ids are
    named, the registered agents among them and no other: one POST and one
    response per id named that is registered, in the order named and as
    often as named, the ids that are not registered being skipped without
    an error.  When no list of ids is given, or an empty one, it consults
    every registered agent once, in the order of registration; for agents
    loaded from a file of well-formed entries with different ids into a
    runtime that had none, that is the order of the file. *)
Theorem group_chat_named_agents E post runtime agent_id ids max_iterations
    query user_id conversation_id verbose w :
  (forall i a, get_agent_by_id runtime i = Some a -> id a = i) ->
  (forall agent_ids, agent_ids = None \/ agent_ids = Some [] ->
     let '(m, w') :=
       run (group_chat E post runtime agent_ids max_iterations query user_id
              conversation_id verbose) w in
     map Runtime.agent_id (gm_agent_responses m)
       = map id (dict_values (get_all_agents runtime)) /\
     length (gm_agent_responses m) = length (get_all_agents runtime) /\
     posts w' = posts w ++
       map (fun a => (endpoint a, query)) (dict_values (get_all_agents runtime))) /\
  (forall self settings good,
     get_all_agents self = [] ->
     Forall (fun c => is_Some (init c)) good ->
     NoDup (map id (omap init good)) ->
     dict_values
       (get_all_agents
          (load_config self (Some {| settings := settings; agents_key := Some good |})))
       = omap init good) /\
  let '(m, w') :=
    run (group_chat E post runtime (Some (agent_id :: ids)) max_iterations query user_id
           conversation_id verbose) w in
  map Runtime.agent_id (gm_agent_responses m)
    = filter (fun i => is_Some (get_agent_by_id runtime i)) (agent_id :: ids) /\
  posts w' = posts w ++
    omap (fun i => a ← get_agent_by_id runtime i; Some (endpoint a, query))
      (agent_id :: ids).
Proof.
  intros Hkeys. split; [|split].
  - intros agent_ids Hnone. unfold group_chat. rewrite run_bind.
    pose proof (group_process_query_posts E post
                  (new_group_chat runtime agent_ids max_iterations)
                  query user_id conversation_id verbose w) as H.
    destruct (run (group_process_query E post
                     (new_group_chat runtime agent_ids max_iterations)
                     query user_id conversation_id verbose) w) as [[m self'] w'].
    destruct H as [Hposts Hids]. simpl.
    assert (Hall : agents (new_group_chat runtime agent_ids max_iterations)
                   = dict_values (get_all_agents runtime)).
    { by destruct Hnone as [-> | ->]. }
    rewrite Hall in Hposts, Hids. split; [exact Hids|]. split; [|exact Hposts].
    rewrite <- (length_map Runtime.agent_id), Hids, length_map.
    unfold dict_values. by rewrite length_fmap.
  - intros self settings good Hempty Hgood Hnodup.
    unfold get_all_agents in *. unfold load_config. simpl.
    rewrite Hempty, load_agents_order; [| done | done |].
    + simpl. unfold dict_values. rewrite <- list_fmap_compose.
      by rewrite list_fmap_id.
    + by apply Forall_forall.
  - unfold group_chat. rewrite run_bind.
    pose proof (group_process_query_posts E post
                  (new_group_chat runtime (Some (agent_id :: ids)) max_iterations)
                  query user_id conversation_id verbose w) as H.
    destruct (run (group_process_query E post
                     (new_group_chat runtime (Some (agent_id :: ids)) max_iterations)
                     query user_id conversation_id verbose) w) as [[m self'] w'].
    destruct H as [Hposts Hids]. simpl in Hposts, Hids. simpl.
    split.
    + rewrite Hids. by apply (named_agents_ids runtime (agent_id :: ids)).
    + rewrite Hposts. f_equal. apply (named_agents_posts runtime query (agent_id :: ids)).
Qed.

Lemma group_chat_named_agents_witness :
  (let '(m, w') :=
     run (group_chat Samples.sample_env Samples.post3 MoreSamples.runtime_hm
            None 5 "hi" "user" None false) Samples.world0 in
   map Runtime.agent_id (gm_agent_responses m) = ["hello-agent"; "math-agent"] /\
   posts w' = [("http://h", "hi"); ("http://m", "hi")]) /\
  (let '(m, w') :=
     run (group_chat Samples.sample_env Samples.post3 MoreSamples.runtime_hm
            (Some ("math-agent" :: ["nobody"; "hello-agent"; "math-agent"]))
            5 "hi" "user" None false) Samples.world0 in
   map Runtime.agent_id (gm_agent_responses m)
     = ["math-agent"; "hello-agent"; "math-agent"] /\
   posts w' = [("http://m", "hi"); ("http://h", "hi"); ("http://m", "hi")]).
Proof.
  pose proof (group_chat_named_agents Samples.sample_env Samples.post3
                MoreSamples.runtime_hm "math-agent" ["nobody"; "hello-agent"; "math-agent"]
                5 "hi" "user" None false Samples.world0) as H.
  destruct H as (Hall & _ & Hnamed).
  - intros i a. unfold get_agent_by_id. simpl.
    destruct (decide ("hello-agent" = i)) as [<-|_]; [by intros [= <-]|].
    destruct (decide ("math-agent" = i)) as [<-|_]; [by intros [= <-]|]. done.
  - specialize (Hall None (or_introl eq_refl)). split.
    + destruct (run (group_chat Samples.sample_env Samples.post3 MoreSamples.runtime_hm
                       None 5 "hi" "user" None false) Samples.world0) as [m w'].
      destruct Hall as (Hids & _ & Hposts). split; [by rewrite Hids | by rewrite Hposts].
    + destruct (run (group_chat Samples.sample_env Samples.post3 MoreSamples.runtime_hm
                       (Some ("math-agent" :: ["nobody"; "hello-agent"; "math-agent"]))
                       5 "hi" "user" None false) Samples.world0) as [m w'].
      destruct Hnamed as [Hids Hposts]. split; [by rewrite Hids | by rewrite Hposts].
Defined.

End GroupChatEndpoint.

(** * The identity a query runs under *)

Section ResolveIdentity.
Import Sessions Api.

Lemma get_session_keeps E db session_token w bt bs :
  db !! bt = Some bs -> expires_at bs = None ->
  (run (get_session E db session_token) w).1.2 !! bt = Some bs.
Proof.
  intros Hbt Hnever. unfold get_session.
  destruct (db !! session_token) as [s|] eqn:Hs; [|done].
  destruct (expires_at s) as [expiry|] eqn:Hexp; [|done].
  rewrite run_bind. cbn [run read_clock].
  destruct (expiry <? _); [|done].
  simpl. unfold delete_session. rewrite Hs. simpl.
  rewrite lookup_delete_ne; [done|]. intros ->. congruence.
Qed.

Lemma get_session_from_token_keeps E db header_token w bt bs :
  db !! bt = Some bs -> expires_at bs = None ->
  (run (get_session_from_token E db header_token) w).1.2 !! bt = Some bs.
Proof.
  intros Hbt Hnever. unfold get_session_from_token.
  destruct (absent header_token); [done|]. rewrite run_bind.
  pose proof (get_session_keeps E db (default "" header_token) w bt bs Hbt Hnever) as H.
  destruct (run (get_session E db (default "" header_token)) w) as [[s db1] w1].
  exact H.
Qed.

Lemma get_user_from_session_keeps E db header_token w bt bs :
  db !! bt = Some bs -> expires_at bs = None ->
  (run (get_user_from_session E db header_token) w).1.2 !! bt = Some bs.
Proof.
  intros Hbt Hnever. unfold get_user_from_session.
  destruct (absent header_token); [done|]. rewrite run_bind.
  pose proof (get_session_keeps E db (default "" header_token) w bt bs Hbt Hnever) as H.
  destruct (run (get_session E db (default "" header_token)) w) as [[s db1] w1].
  exact H.
Qed.

(** X18: a [session_token] in the body of a query that names a session
    without expiry time decides the identity, whatever the
    [X-Session-Token] header holds: the query runs under that session, and
    under that session's user, also when the session has no user and the
    header's session has one; a [user_id] in the body replaces the user
    and leaves the session.  The session named in the body stays in the
    table. *)
Theorem resolve_identity_body_session E db header_token bt bs request_user_id w :
  bt <> "" -> db !! bt = Some bs -> expires_at bs = None ->
  let '((session_id, user_id, db'), w') :=
    run (resolve_identity E db header_token (Some bt) request_user_id) w in
  session_id = Some (id bs) /\
  user_id = (if absent request_user_id then Sessions.user_id bs else request_user_id) /\
  db' !! bt = Some bs.
Proof.
  intros Hbt Hdb Hnever. unfold resolve_identity. rewrite run_bind.
  pose proof (get_session_from_token_keeps E db header_token w bt bs Hdb Hnever) as H1.
  destruct (run (get_session_from_token E db header_token) w) as [[sid db1] w1].
  simpl in H1. rewrite run_bind.
  pose proof (get_user_from_session_keeps E db1 header_token w1 bt bs H1 Hnever) as H2.
  destruct (run (get_user_from_session E db1 header_token) w1) as [[uid db2] w2].
  simpl in H2. rewrite run_bind.
  assert (Habsent : absent (Some bt) = false).
  { simpl. by apply String.eqb_neq. }
  rewrite Habsent. rewrite run_bind. unfold get_session at 1. simpl.
  rewrite H2, Hnever. simpl. done.
Qed.

Lemma resolve_identity_body_session_witness :
  let '((session_id, user_id, db'), w') :=
    run (resolve_identity Samples.sample_env MoreSamples.sessions2
           (Some "bob-token") (Some "guest") None) Samples.world0 in
  session_id = Some "s-guest" /\ user_id = None.
Proof.
  pose proof (resolve_identity_body_session Samples.sample_env MoreSamples.sessions2
                (Some "bob-token") "guest" (Samples.session "guest" None) None
                Samples.world0) as H.
  destruct (run (resolve_identity Samples.sample_env MoreSamples.sessions2
                   (Some "bob-token") (Some "guest") None) Samples.world0)
    as [[[session_id user_id] db'] w'].
  destruct H as (Hs & Hu & _); [done | reflexivity | reflexivity |].
  split; [exact Hs | exact Hu].
Defined.

End ResolveIdentity.

(** * Users, conversations and stored messages *)

Section AnonymousUser.
Import Persistence.

Lemma same_spec a b : same a b = true <-> a = Some b.
Proof.
  destruct a as [a|]; simpl; [|by split].
  rewrite String.eqb_eq. split; congruence.
Qed.

(** X19: when [get_or_create_anonymous_user] returns a user, the user is
    named "anonymous" and is in the table afterwards, and every later call
    returns that same user and neither adds a row nor draws an id: there
    is one anonymous user, created by the first call. *)
Theorem anonymous_user_created_once E us w user us' w' :
  run (get_or_create_anonymous_user E us) w = (inr (user, us'), w') ->
  u_username user = Some "anonymous" /\
  user ∈ us' /\
  forall w2, run (get_or_create_anonymous_user E us') w2 = (inr (user, us'), w2).
Proof.
  unfold get_or_create_anonymous_user.
  destruct (filter (fun u => same (u_username u) "anonymous" = true) us)
    as [|u [|u2 l]] eqn:Hfilter; cbn [scalar_one_or_none].
  - rewrite run_bind. cbn [run uuid4]. unfold add_user.
    destruct (_ || _ || _); [done|].
    intros [= <- <- <-]. split; [done|].
    split; [apply elem_of_app; right; by left|].
    intros w2. rewrite filter_app, Hfilter. reflexivity.
  - intros [= <- <- <-].
    assert (Hu : u ∈ filter (fun u => same (u_username u) "anonymous" = true) us).
    { rewrite Hfilter. by left. }
    apply list_elem_of_filter in Hu as [Hname Hin].
    split; [by apply same_spec|]. split; [done|].
    intros w2. by rewrite Hfilter.
  - done.
Qed.

Lemma anonymous_user_created_once_witness :
  run (get_or_create_anonymous_user Samples.sample_env
         [{| u_id := "uuid-0"; u_username := Some "anonymous"; u_email := None |}])
    Samples.world0
  = (inr ({| u_id := "uuid-0"; u_username := Some "anonymous"; u_email := None |},
          [{| u_id := "uuid-0"; u_username := Some "anonymous"; u_email := None |}]),
     Samples.world0).
Proof.
  refine (proj2 (proj2 (anonymous_user_created_once Samples.sample_env [] Samples.world0
                          _ _ _ _)) Samples.world0).
  reflexivity.
Defined.

End AnonymousUser.

Section PersistedQuery.
Import Runtime Persistence.

Lemma str_take_len (n : nat) (s : string) :
  str_len (str_take n s) = Nat.min n (str_len s).
Proof.
  revert n. induction s as [|c s IH]; intros n; simpl; [by destruct n|].
  destruct (continuation c) eqn:Hc; simpl; rewrite ?Hc; [apply IH|].
  destruct n as [|n]; simpl; [done|]. by rewrite Hc, IH.
Qed.

Lemma title_of_short (query : string) :
  (str_len query <= 50)%nat -> title_of query = query.
Proof.
  intros Hlen. unfold title_of.
  destruct (Nat.ltb_spec 50 (str_len query)); [lia | done].
Qed.

Lemma title_of_counts_characters :
  String.length (MoreSamples.times 30 MoreSamples.e_acute) = 60%nat /\
  title_of (MoreSamples.times 30 MoreSamples.e_acute)
    = MoreSamples.times 30 MoreSamples.e_acute /\
  title_of (MoreSamples.times 51 MoreSamples.e_acute)
    = MoreSamples.times 50 MoreSamples.e_acute +:+ "...".
Proof. split; [|split]; vm_compute; reflexivity. Qed.

Lemma existsb_false_Forall {A} (f : A -> bool) (l : list A) :
  existsb f l = false -> Forall (fun x => f x = false) l.
Proof.
  induction l as [|x l IH]; simpl; [constructor|].
  intros [Hx Hl]%orb_false_iff. constructor; auto.
Qed.

Lemma anonymous_user_in E us w user us' w' :
  run (get_or_create_anonymous_user E us) w = (inr (user, us'), w') ->
  user ∈ us' /\ u_username user = Some "anonymous".
Proof.
  unfold get_or_create_anonymous_user.
  destruct (filter (fun u => same (u_username u) "anonymous" = true) us)
    as [|u [|u2 l]] eqn:Hfilter; cbn [scalar_one_or_none]; [| |done].
  - rewrite run_bind. cbn [run uuid4]. unfold add_user.
    destruct (_ || _ || _); [done|].
    intros [= <- <- <-]. split; [apply elem_of_app; right; by left | done].
  - intros [= <- <- <-].
    assert (Hu : u ∈ filter (fun u => same (u_username u) "anonymous" = true) us).
    { rewrite Hfilter. by left. }
    apply list_elem_of_filter in Hu as [Hname Hin].
    split; [done|]. destruct (u_username u) as [n|]; simpl in Hname; [|done].
    apply String.eqb_eq in Hname. by subst.
Qed.

Lemma resolve_user_in E us user_id w user us' w' :
  run (resolve_user E us user_id) w = (inr (user, us'), w') ->
  user ∈ us' /\
  (u_username user = Some "anonymous" \/
   absent user_id = false /\ user_id = Some (u_id user)).
Proof.
  unfold resolve_user. destruct (absent user_id) eqn:Habsent.
  { intros H. apply anonymous_user_in in H as [? ?]. auto. }
  destruct (filter (fun u => (u_id u =? default "" user_id)%string = true) us)
    as [|u [|u2 l]] eqn:Hfilter; cbn [scalar_one_or_none]; [| |done].
  - intros H. apply anonymous_user_in in H as [? ?]. auto.
  - intros [= <- <- <-].
    assert (Hu : u ∈ filter (fun u => (u_id u =? default "" user_id)%string = true) us).
    { rewrite Hfilter. by left. }
    apply list_elem_of_filter in Hu as [Hid Hin]. apply String.eqb_eq in Hid.
    split; [done|]. right. split; [done|].
    destruct user_id as [i|]; [|done]. simpl in Hid. by rewrite Hid.
Qed.

Lemma add_message_spec E rows fill w row rows' w' :
  run (add_message E rows fill) w = (inr (row, rows'), w') ->
  row = fill (uuid_src E (uuid_count w)) /\
  rows' = rows ++ [row] /\
  Forall (fun r => Enhanced.m_id (columns r) <> uuid_src E (uuid_count w)) rows.
Proof.
  unfold add_message. rewrite run_bind. cbn [run uuid4].
  destruct (existsb _ rows) eqn:Hfresh; [done|].
  intros [= <- <- <-]. split; [done|]. split; [done|].
  apply existsb_false_Forall in Hfresh.
  eapply Forall_impl; [exact Hfresh|]. intros r Hr. simpl in Hr.
  by apply String.eqb_neq.
Qed.

(** X20: when [process_query_with_persistence] returns a result, it has
    stored exactly two messages after those that were there, first the
    user's with the query as content and the user as sender, then the
    assistant's with the content, agents and trace of the reply and the
    user as recipient, both in the conversation whose id the result
    carries; the two ids are the ones the result carries, they differ and
    no earlier message had them.  The user is a row of [users], the one
    with the [user_id] given or the anonymous one.  A [conversation_id]
    that names a stored conversation is kept; any other, and none, makes a
    new conversation, titled from the query, whose id replaces the one
    given, also as the key of the runtime's own history: the reply is that
    of [process_query] under the stored conversation's id. *)
Theorem process_query_with_persistence_rows E chat self st query conversation_id
    session_id user_id verbose w p self' st' w' :
  run (process_query_with_persistence E chat self st query conversation_id session_id
         user_id verbose) w = ((inr p, self', st'), w') ->
  exists user,
    user ∈ users st' /\
    (u_username user = Some "anonymous" \/
     absent user_id = false /\ user_id = Some (u_id user)) /\
    message_rows st' =
      message_rows st ++
        [{| columns :=
              {| Enhanced.m_id := p_user_message_id p;
                 Enhanced.m_conversation_id := p_conversation_id p;
                 Enhanced.m_role := "user";
                 Enhanced.m_content := query;
                 Enhanced.m_sender_id := Some (u_id user);
                 Enhanced.m_recipient_id := None;
                 Enhanced.m_message_type := Some "text";
                 Enhanced.m_agents_used := None |};
            execution_trace := None |};
         {| columns :=
              {| Enhanced.m_id := p_assistant_message_id p;
                 Enhanced.m_conversation_id := p_conversation_id p;
                 Enhanced.m_role := "assistant";
                 Enhanced.m_content := msg_content (reply p);
                 Enhanced.m_sender_id := Some "runtime";
                 Enhanced.m_recipient_id := Some (u_id user);
                 Enhanced.m_message_type := Some "text";
                 Enhanced.m_agents_used :=
                   Some (PList (PStr <$> default [] (msg_agents_used (reply p)))) |};
            execution_trace := Some (default [] (msg_execution_trace (reply p))) |}] /\
    p_user_message_id p <> p_assistant_message_id p /\
    Forall (fun r => Enhanced.m_id (columns r) <> p_user_message_id p /\
                     Enhanced.m_id (columns r) <> p_assistant_message_id p)
      (message_rows st) /\
    match (if absent conversation_id then None
           else get_conversation (conversation_rows st) (default "" conversation_id)) with
    | Some c =>
        p_conversation_id p = c_id c /\ conversation_rows st' = conversation_rows st
    | None =>
        conversation_rows st !! p_conversation_id p = None /\
        conversation_rows st' =
          <[p_conversation_id p :=
              {| c_id := p_conversation_id p;
                 c_session_id := session_id;
                 c_user_id := Some (u_id user);
                 c_title := Some (title_of query);
                 c_extra_data := [] |}]> (conversation_rows st)
    end /\
    (exists t, touched st' = <[p_conversation_id p := utcnow t]> (touched st)) /\
    exists w1 w2,
      run (process_query E chat self query (Some (p_conversation_id p)) verbose None) w1
        = ((reply p, self'), w2).
Proof.
  unfold process_query_with_persistence. rewrite run_bind.
  destruct (run (resolve_user E (users st) user_id) w) as [[e|[user us]] w1] eqn:Huser;
    [done|].
  apply resolve_user_in in Huser as [Hin Hwho].
  cbv beta iota zeta. rewrite run_bind.
  set (found := if absent conversation_id then None
                else get_conversation (conversation_rows st) (default "" conversation_id)).
  assert (Hconv : forall c rows wc,
            run (resolve_conversation E (conversation_rows (with_users st us))
                   conversation_id session_id user query) w1 = (inr (c, rows), wc) ->
            match found with
            | Some c' => c_id c = c_id c' /\ rows = conversation_rows st
            | None =>
                conversation_rows st !! c_id c = None /\
                rows = <[c_id c := {| c_id := c_id c; c_session_id := session_id;
                                      c_user_id := Some (u_id user);
                                      c_title := Some (title_of query);
                                      c_extra_data := [] |}]> (conversation_rows st)
            end).
  { intros c rows wc. unfold resolve_conversation, found. simpl conversation_rows.
    destruct (if absent conversation_id then None
              else get_conversation (conversation_rows st) (default "" conversation_id))
      as [c'|].
    - by intros [= <- <- <-].
    - unfold create_conversation. rewrite run_bind. cbn [run uuid4].
      destruct (conversation_rows st !! _) eqn:Hfresh; [done|].
      intros [= <- <- <-]. simpl. done. }
  destruct (run (resolve_conversation E (conversation_rows (with_users st us))
                   conversation_id session_id user query) w1)
    as [[e|[c rows]] w2] eqn:Hc; [done|].
  specialize (Hconv c rows w2 eq_refl).
  cbv beta iota zeta. rewrite run_bind.
  match goal with
  | |- context [run (add_message E ?r ?f) w2] =>
      destruct (run (add_message E r f) w2) as [[e|[user_row rows1]] w3] eqn:Hadd1;
        [done | apply add_message_spec in Hadd1 as (Hrow1 & Hrows1 & Hfresh1)]
  end.
  cbv beta iota zeta. rewrite run_bind.
  destruct (run (process_query E chat self query (Some (c_id c)) verbose None) w3)
    as [[result self1] w4] eqn:Hquery.
  cbv beta iota zeta. rewrite run_bind.
  match goal with
  | |- context [run (add_message E ?r ?f) w4] =>
      destruct (run (add_message E r f) w4) as [[e|[assistant_row rows2]] w5] eqn:Hadd2;
        [done | apply add_message_spec in Hadd2 as (Hrow2 & Hrows2 & Hfresh2)]
  end.
  cbv beta iota zeta. rewrite run_bind. cbn [run read_clock].
  intros [= <- <- <- <-].
  exists user. subst rows1 rows2 user_row assistant_row.
  apply Forall_app in Hfresh2 as [Hfresh2 Hne].
  apply Forall_cons in Hne as [Hne _].
  cbn [users message_rows conversation_rows touched with_users with_conversations
       with_messages touch reply p_conversation_id p_user_message_id
       p_assistant_message_id columns Enhanced.m_id] in *.
  split; [done|]. split; [done|].
  split; [by rewrite <- app_assoc|].
  split; [by intros Heq; apply Hne|].
  split.
  { apply Forall_forall. intros r Hr. split.
    - by eapply (proj1 (Forall_forall _ _) Hfresh1).
    - by eapply (proj1 (Forall_forall _ _) Hfresh2). }
  split; [exact Hconv|].
  split; [by eexists|].
  by exists w3, w4.
Qed.

Lemma process_query_with_persistence_rows_witness :
  map (fun r => (Enhanced.m_role (columns r), Enhanced.m_content (columns r)))
    (message_rows
       (run (process_query_with_persistence Samples.sample_env Samples.chat_raises
               Samples.runtime0 MoreSamples.store0 "hi" (Some "gone") None None false)
          Samples.world0).1.2)
  = [("user", "hi"); ("assistant", "Error processing query: boom")].
Proof.
  destruct (run (process_query_with_persistence Samples.sample_env Samples.chat_raises
                   Samples.runtime0 MoreSamples.store0 "hi" (Some "gone") None None false)
              Samples.world0) as [[[[e|p] self'] st'] w'] eqn:Hrun.
  - vm_compute in Hrun. discriminate Hrun.
  - destruct (process_query_with_persistence_rows Samples.sample_env Samples.chat_raises
                Samples.runtime0 MoreSamples.store0 "hi" (Some "gone") None None false
                Samples.world0 p self' st' w' Hrun)
      as (user & _ & _ & Hrows & _).
    assert (Hreply : msg_content (reply p) = "Error processing query: boom").
    { pose proof Hrun as Hval. vm_compute in Hval.
      injection Hval as Hp _ _ _. by rewrite <- Hp. }
    cbn [fst snd]. rewrite Hrows.
    cbn [MoreSamples.store0 message_rows app map columns Enhanced.m_role Enhanced.m_content].
    by rewrite Hreply.
Defined.

End PersistedQuery.

Section DeleteConversation.
Import Persistence.

(** X21: deleting a conversation that is stored removes it and every
    message of it, and nothing else: the other conversations stay, the
    messages of the other conversations stay in their order, the users
    stay.  Deleting one that is not stored answers [False] and changes
    nothing, so a second deletion does. *)
Theorem delete_conversation_cascade st conversation_id :
  let '(found, st') := delete_conversation st conversation_id in
  found = bool_decide (is_Some (get_conversation (conversation_rows st) conversation_id)) /\
  get_conversation (conversation_rows st') conversation_id = None /\
  (forall other, other <> conversation_id ->
     get_conversation (conversation_rows st') other
       = get_conversation (conversation_rows st) other /\
     filter (fun r => Enhanced.m_conversation_id (columns r) = other) (message_rows st')
       = filter (fun r => Enhanced.m_conversation_id (columns r) = other) (message_rows st)) /\
  (found = true ->
     Forall (fun r => Enhanced.m_conversation_id (columns r) <> conversation_id)
       (message_rows st')) /\
  (found = false -> st' = st) /\
  users st' = users st /\
  delete_conversation st' conversation_id = (false, st').
Proof.
  unfold delete_conversation, get_conversation.
  destruct (conversation_rows st !! conversation_id) as [c|] eqn:Hc.
  - cbn [conversation_rows message_rows users].
    rewrite lookup_delete_eq.
    split; [by rewrite bool_decide_eq_true_2|]. split; [done|].
    split; [|split; [|split; [done|split; done]]].
    + intros other Hother. split; [by rewrite lookup_delete_ne|].
      induction (message_rows st) as [|r rows IH]; [done|].
      rewrite !filter_cons.
      destruct (decide ((Enhanced.m_conversation_id (columns r) =? conversation_id)%string
                        = false)) as [Hkeep|Hdrop].
      * rewrite filter_cons. destruct (decide (_ = other)); by rewrite IH.
      * apply not_false_is_true, String.eqb_eq in Hdrop.
        destruct (decide (Enhanced.m_conversation_id (columns r) = other)); [congruence|].
        exact IH.
    + intros _. apply Forall_forall. intros r [Hr _]%list_elem_of_filter.
      by apply String.eqb_neq.
  - rewrite Hc. split; [by rewrite bool_decide_eq_false_2; [|intros [? ?]]|].
    by repeat split.
Qed.

End DeleteConversation.
